(** * Minecraft-Custom-Model-Diagnoser: a shallow embedding of [main.py]

    The diagnoser walks a resource pack, loads every model document with
    Python's [json] module, and checks it with a handful of functions that
    mix pure inspection of the loaded value, interactive confirmation
    ([ask]) and file rewrites ([dump]).

    The embedding follows the source function by function:
    - a loaded document is a value of [JSON], the untyped tree that
      [json.load] returns (dicts keep their insertion order and are
      association lists; numbers are integers, a document with a
      fractional number is outside the model);
    - Python's operators on such values ([in], subscripting, [==], [<],
      [isinstance]) are functions that either return or raise;
    - the interactive functions run in a state-and-exception monad over a
      [world] that holds the two globals [AUTO_FIX] and [is_error_exist],
      the answers still to be typed on standard input, and a log of every
      prompt and every file rewrite;
    - a string is a sequence of 8-bit characters, and [str.islower] and
      [str.lower] are modelled as they act on ASCII text, where the
      letters A-Z and a-z are the only cased characters; a property that
      depends on the case of a name is stated for the names that satisfy
      [PyStr.isascii]. *)

From Stdlib Require Import ZArith Ascii String List Bool Lia Sorted Permutation.
From stdpp Require Import base decidable list strings pretty gmap.

Local Open Scope Z_scope.

(** ** Python strings (ASCII) *)

Module PyStr.

Definition code (c : ascii) : nat := nat_of_ascii c.

Definition isupper_char (c : ascii) : bool :=
  (Nat.leb 65 (code c)) && (Nat.leb (code c) 90).

Definition islower_char (c : ascii) : bool :=
  (Nat.leb 97 (code c)) && (Nat.leb (code c) 122).

Definition iscased_char (c : ascii) : bool :=
  isupper_char c || islower_char c.

Definition lower_char (c : ascii) : ascii :=
  if isupper_char c then ascii_of_nat (code c + 32) else c.

Definition space : ascii := ascii_of_nat 32.
Definition underscore : ascii := ascii_of_nat 95.
Definition dquote : ascii := ascii_of_nat 34.
Definition backslash : ascii := ascii_of_nat 92.
Definition dot : ascii := ascii_of_nat 46.

Fixpoint any (p : ascii -> bool) (s : string) : bool :=
  match s with
  | EmptyString => false
  | String c s' => p c || any p s'
  end.

Fixpoint map (f : ascii -> ascii) (s : string) : string :=
  match s with
  | EmptyString => EmptyString
  | String c s' => String (f c) (map f s')
  end.

(** [s.isascii()]: every character is below 128. *)
Definition isascii (s : string) : bool :=
  negb (any (fun c => Nat.leb 128 (code c)) s).

(** [s.islower()] for an ASCII [s]: no uppercase character and at least
    one cased one. *)
Definition islower (s : string) : bool :=
  negb (any isupper_char s) && any iscased_char s.

(** [' ' in s] *)
Definition has_space (s : string) : bool := any (Ascii.eqb space) s.

(** [s.replace(' ', '_')] *)
Definition replace_space (s : string) : string :=
  map (fun c => if Ascii.eqb space c then underscore else c) s.

(** [s.lower()] for an ASCII [s] *)
Definition lower (s : string) : string := map lower_char s.

(** [sub in s] for two strings *)
Fixpoint contains (sub s : string) : bool :=
  String.prefix sub s ||
  match s with
  | EmptyString => false
  | String _ s' => contains sub s'
  end.

(** [s.rfind('.')], counted from the left; [None] stands for -1. *)
Fixpoint rfind_dot (s : string) : option nat :=
  match s with
  | EmptyString => None
  | String c s' =>
      match rfind_dot s' with
      | Some i => Some (S i)
      | None => if Ascii.eqb c dot then Some O else None
      end
  end.

(** [s[:i]] *)
Fixpoint take (i : nat) (s : string) : string :=
  match i, s with
  | S i', String c s' => String c (take i' s')
  | _, _ => EmptyString
  end.

End PyStr.

(** ** Paths

    [pathlib.Path] as the parent directory (posix text) and the final
    component.  [stem] follows [PurePath.stem]: the name up to its last
    dot, unless that dot is the first or the last character. *)

Record Path := mkPath { parent : string; name : string }.

Definition stem (p : Path) : string :=
  match PyStr.rfind_dot (name p) with
  | Some i =>
      if (Nat.ltb 0 i) && (Nat.ltb i (String.length (name p) - 1))
      then PyStr.take i (name p)
      else name p
  | None => name p
  end.

Definition as_posix (p : Path) : string := parent p +:+ "/" +:+ name p.

(** ** Loaded documents *)

#[local] Unset Elimination Schemes.
Inductive JSON : Type :=
| JNull
| JBool (b : bool)
| JInt (n : Z)
| JStr (s : string)
| JList (l : list JSON)
| JDict (d : list (string * JSON)).
#[local] Set Elimination Schemes.

(** ** Exceptions *)

(** The text carried by a [NoQuickFix], one constructor per raise site. *)
Inductive nqf_message : Type :=
| MalformedJson (p : Path)
| OverridesKeyMissing (p : Path)
| OverridesNotList (p : Path)
| KeyErrorArg (key : string)
| DuplicateCustomModelData (number : JSON) (p : Path)
| TexturesNotJson (p : Path)
| ElementsKeyMissing (p : Path)
| MissingTextureFound (p : Path)
| UnmatchedNames (strings : list (string * gset string)).

Inductive rpe_message : Type :=
| TexturesKeyMissing (p : Path)
| ItemDirMissing
| TextureDirMissing
| PackMcmetaMissing
| AssetsMinecraftMissing.

Inductive exn : Type :=
| NoQuickFix (m : nqf_message)
| ResourcePackError (m : rpe_message)
| KeyError (key : string)
| IndexError
| TypeError
| AttributeError
| UnboundLocalError
| EOFError.

Inductive result (A : Type) : Type :=
| Normal (a : A)
| Raise (e : exn).
Arguments Normal {A} a.
Arguments Raise {A} e.

Definition rbind {A B} (r : result A) (k : A -> result B) : result B :=
  match r with
  | Normal a => k a
  | Raise e => Raise e
  end.

(** ** Python operators on loaded values *)

Module Py.

(** [key in d] for a dict. *)
Definition dict_has (d : list (string * JSON)) (key : string) : bool :=
  existsb (fun kv => String.eqb key (fst kv)) d.

(** [d[key]] for a dict. *)
Fixpoint dict_get (d : list (string * JSON)) (key : string) : option JSON :=
  match d with
  | [] => None
  | (k, v) :: d' => if String.eqb key k then Some v else dict_get d' key
  end.

(** [d[key] = v] for a dict: an existing key keeps its place. *)
Fixpoint dict_set (d : list (string * JSON)) (key : string) (v : JSON)
  : list (string * JSON) :=
  match d with
  | [] => [(key, v)]
  | (k, w) :: d' =>
      if String.eqb key k then (k, v) :: d' else (k, w) :: dict_set d' key v
  end.

(** The integer a [bool] or [int] stands for in comparisons. *)
Definition as_number (v : JSON) : option Z :=
  match v with
  | JInt n => Some n
  | JBool true => Some 1
  | JBool false => Some 0
  | _ => None
  end.

(** [a == b].  [bool] is a subclass of [int]; lists compare element by
    element; dicts compare as mappings, whatever their order. *)
Fixpoint eq (a b : JSON) {struct a} : bool :=
  match a, b with
  | JNull, JNull => true
  | JBool x, JBool y => Bool.eqb x y
  | JBool x, JInt n => Z.eqb (if x then 1 else 0) n
  | JInt n, JBool y => Z.eqb n (if y then 1 else 0)
  | JInt n, JInt m => Z.eqb n m
  | JStr s, JStr t => String.eqb s t
  | JList l, JList m =>
      (fix eq_list (l m : list JSON) {struct l} : bool :=
         match l, m with
         | [], [] => true
         | x :: l', y :: m' => eq x y && eq_list l' m'
         | _, _ => false
         end) l m
  | JDict d, JDict e =>
      Nat.eqb (length d) (length e) &&
      (fix eq_items (d : list (string * JSON)) {struct d} : bool :=
         match d with
         | [] => true
         | (k, v) :: d' =>
             existsb (fun kw => String.eqb k (fst kw) && eq v (snd kw)) e
             && eq_items d'
         end) d
  | _, _ => false
  end.

(** [key in c] with a string on the left. *)
Definition contains (c : JSON) (key : string) : result bool :=
  match c with
  | JDict d => Normal (dict_has d key)
  | JList l => Normal (existsb (fun x => eq (JStr key) x) l)
  | JStr s => Normal (PyStr.contains key s)
  | JNull | JBool _ | JInt _ => Raise TypeError
  end.

(** [c[key]] with a string subscript. *)
Definition getitem (c : JSON) (key : string) : result JSON :=
  match c with
  | JDict d =>
      match dict_get d key with
      | Some v => Normal v
      | None => Raise (KeyError key)
      end
  | _ => Raise TypeError
  end.

(** [c[key] = v] with a string subscript. *)
Definition setitem (c : JSON) (key : string) (v : JSON) : result JSON :=
  match c with
  | JDict d => Normal (JDict (dict_set d key v))
  | _ => Raise TypeError
  end.

(** [l[0]] for a list. *)
Definition first (l : list JSON) : result JSON :=
  match l with
  | x :: _ => Normal x
  | [] => Raise IndexError
  end.

(** [a < b]: numbers by value, strings and lists lexicographically;
    every other pairing raises [TypeError]. *)
Fixpoint str_lt (s t : string) : bool :=
  match s, t with
  | _, EmptyString => false
  | EmptyString, String _ _ => true
  | String a s', String b t' =>
      if Nat.ltb (nat_of_ascii a) (nat_of_ascii b) then true
      else if Nat.ltb (nat_of_ascii b) (nat_of_ascii a) then false
      else str_lt s' t'
  end.

Fixpoint lt (a b : JSON) {struct a} : result bool :=
  match a, b with
  | JStr s, JStr t => Normal (str_lt s t)
  | JList l, JList m =>
      (fix lt_list (l m : list JSON) {struct l} : result bool :=
         match l, m with
         | [], [] => Normal false
         | [], _ :: _ => Normal true
         | _ :: _, [] => Normal false
         | x :: l', y :: m' => if eq x y then lt_list l' m' else lt x y
         end) l m
  | _, _ =>
      match as_number a, as_number b with
      | Some n, Some m => Normal (Z.ltb n m)
      | _, _ => Raise TypeError
      end
  end.

End Py.

(** ** [json.dumps]

    The compact encoding of [dumps(json)]: items separated by a comma and
    a space, keys and values by a colon and a space, and, with the default
    [ensure_ascii], every character outside the printable ASCII range and
    the two characters double quote and backslash escaped. *)

Module Dumps.

Definition hex_digit (n : nat) : ascii :=
  if Nat.ltb n 10 then ascii_of_nat (48 + n) else ascii_of_nat (87 + n).

Definition escape_char (c : ascii) : string :=
  let n := nat_of_ascii c in
  if Ascii.eqb c PyStr.dquote then String PyStr.backslash (String PyStr.dquote "")
  else if Ascii.eqb c PyStr.backslash then String PyStr.backslash (String PyStr.backslash "")
  else if Nat.eqb n 10 then String PyStr.backslash "n"
  else if Nat.eqb n 13 then String PyStr.backslash "r"
  else if Nat.eqb n 9 then String PyStr.backslash "t"
  else if Nat.eqb n 8 then String PyStr.backslash "b"
  else if Nat.eqb n 12 then String PyStr.backslash "f"
  else if (Nat.leb 32 n) && (Nat.leb n 126) then String c ""
  else String PyStr.backslash
         ("u00" +:+ String (hex_digit (n / 16)) (String (hex_digit (n mod 16)) "")).

Fixpoint escape (s : string) : string :=
  match s with
  | EmptyString => EmptyString
  | String c s' => escape_char c +:+ escape s'
  end.

Definition quoted (s : string) : string :=
  String PyStr.dquote (escape s +:+ String PyStr.dquote "").

Fixpoint dumps (v : JSON) : string :=
  match v with
  | JNull => "null"
  | JBool true => "true"
  | JBool false => "false"
  | JInt n => pretty n
  | JStr s => quoted s
  | JList l =>
      "[" +:+
      (fix items (l : list JSON) : string :=
         match l with
         | [] => ""
         | [x] => dumps x
         | x :: l' => dumps x +:+ ", " +:+ items l'
         end) l +:+ "]"
  | JDict d =>
      "{" +:+
      (fix items (d : list (string * JSON)) : string :=
         match d with
         | [] => ""
         | [(k, x)] => quoted k +:+ ": " +:+ dumps x
         | (k, x) :: d' => quoted k +:+ ": " +:+ dumps x +:+ ", " +:+ items d'
         end) d +:+ "}"
  end.

End Dumps.

(** ** The world the interactive functions run in *)

(** The questions [ask] is called with, one constructor per call site. *)
Inductive question : Type :=
| InvalidFileName (str : string)
| PackMcmetaJsonError
| PackKeywordMissing
| PackFormatMissing
| PackFormatNotWhole
| DescriptionMissing
| NotAscending (p : Path)
| InvalidTextures (p : Path)
| NotJsonFile (p : Path)
| NotPngFile (p : Path).

Inductive event : Type :=
| Asked (q : question)
| Dumped (p : Path) (doc : JSON).

Record world := mkWorld {
  AUTO_FIX : bool;
  is_error_exist : bool;
  stdin : list string;
  log : list event
}.

Definition M (A : Type) : Type := world -> result A * world.

Definition ret {A} (a : A) : M A := fun w => (Normal a, w).

Definition raise {A} (e : exn) : M A := fun w => (Raise e, w).

Definition bind {A B} (m : M A) (k : A -> M B) : M B :=
  fun w =>
    match m w with
    | (Normal a, w') => k a w'
    | (Raise e, w') => (Raise e, w')
    end.

Definition lift {A} (r : result A) : M A := fun w => (r, w).

Declare Scope py_scope.
Delimit Scope py_scope with py.
Notation "x <- c ;; k" := (bind c (fun x => k))
  (at level 100, c at next level, right associativity) : py_scope.
Notation "c ;; k" := (bind c (fun _ => k))
  (at level 100, right associativity) : py_scope.
Notation "x <-? c ;; k" := (rbind c (fun x => k))
  (at level 100, c at next level, right associativity) : py_scope.
Local Open Scope py_scope.

Definition emit (e : event) : M unit :=
  fun w =>
    (Normal tt,
     {| AUTO_FIX := AUTO_FIX w; is_error_exist := is_error_exist w;
        stdin := stdin w; log := log w ++ [e] |}).

(** [dump(doc, file, indent=INDENT_LV)] on a file opened with ['w+']. *)
Definition dump (p : Path) (doc : JSON) : M unit := emit (Dumped p doc).

(** The [while True] loop of [ask]: lines are read until one of them,
    lowercased, is yes, y, no or n; the end of input raises [EOFError],
    every line having been read. *)
Fixpoint read_answer (lines : list string) : option (bool * list string) :=
  match lines with
  | [] => None
  | line :: rest =>
      let answer := PyStr.lower line in
      if String.eqb answer "yes" || String.eqb answer "y" then Some (true, rest)
      else if String.eqb answer "no" || String.eqb answer "n" then Some (false, rest)
      else read_answer rest
  end.

Definition ask (q : question) : M bool :=
  fun w =>
    let w1 := {| AUTO_FIX := AUTO_FIX w; is_error_exist := true;
                 stdin := stdin w; log := log w ++ [Asked q] |} in
    if AUTO_FIX w1 then (Normal true, w1)
    else
      match read_answer (stdin w1) with
      | Some (answer, rest) =>
          (Normal answer,
           {| AUTO_FIX := AUTO_FIX w1; is_error_exist := is_error_exist w1;
              stdin := rest; log := log w1 |})
      | None =>
          (Raise EOFError,
           {| AUTO_FIX := AUTO_FIX w1; is_error_exist := is_error_exist w1;
              stdin := []; log := log w1 |})
      end.

(** What the next call of [ask] answers in a world, if it answers. *)
Definition next_answer (w : world) : option bool :=
  if AUTO_FIX w then Some true else fst <$> read_answer (stdin w).

(** ** [fix_name] *)

Definition fix_name (str : string) : M (bool * string) :=
  if PyStr.islower str && negb (PyStr.has_space str)
  then ret (false, str)
  else
    yes <- ask (InvalidFileName str);;
    if yes : bool then ret (true, PyStr.lower (PyStr.replace_space str))
    else ret (false, str).

(** [fix_name] applied to a loaded value: anything but a [str] has no
    [islower] method. *)
Definition fix_name_value (v : JSON) : M (bool * JSON) :=
  match v with
  | JStr s => r <- fix_name s;; ret (fst r, JStr (snd r))
  | _ => raise AttributeError
  end.

(** ** [check_pack_mcmeta] *)

Definition DEFAULTS_pack_format : JSON := JInt 8.
Definition DEFAULTS_description : JSON := JStr "Fixed by WingedSeal-Bot".

Definition DEFAULT_JSON : JSON :=
  JDict [("pack", JDict [("pack_format", DEFAULTS_pack_format);
                         ("description", DEFAULTS_description)])].

Definition pack_mcmeta (path : string) : Path := mkPath path "pack.mcmeta".

(** [json['pack'][key] = value] *)
Definition set_pack_field (json : JSON) (key : string) (value : JSON)
  : result JSON :=
  pack <-? Py.getitem json "pack";;
  pack' <-? Py.setitem pack key value;;
  Py.setitem json "pack" pack'.

(** Lines 72-86: the checks below the two resets.  [json] is bound. *)
Definition check_pack_fields (path : string) (json : JSON) : M unit :=
  pack <- lift (Py.getitem json "pack");;
  has_format <- lift (Py.contains pack "pack_format");;
  json <-
    (if negb has_format then
       yes <- ask PackFormatMissing;;
       if yes : bool
       then lift (set_pack_field json "pack_format" DEFAULTS_pack_format)
       else ret json
     else
       value <- lift (Py.getitem pack "pack_format");;
       match value with
       | JInt _ => ret json
       | _ =>
           yes <- ask PackFormatNotWhole;;
           if yes : bool
           then lift (set_pack_field json "pack_format" DEFAULTS_pack_format)
           else ret json
       end);;
  pack <- lift (Py.getitem json "pack");;
  has_description <- lift (Py.contains pack "description");;
  json <-
    (if negb has_description then
       yes <- ask DescriptionMissing;;
       if yes : bool
       then lift (set_pack_field json "description" DEFAULTS_description)
       else ret json
     else ret json);;
  dump (pack_mcmeta path) json.

(** Lines 67-86.  The local [json] is unbound ([None]) when [load] failed
    and the reset was declined. *)
Definition check_pack_loaded (path : string) (json : option JSON) : M unit :=
  match json with
  | None => raise UnboundLocalError
  | Some json =>
      has_pack <- lift (Py.contains json "pack");;
      reset <- (if negb has_pack then ask PackKeywordMissing else ret false);;
      if reset : bool then dump (pack_mcmeta path) DEFAULT_JSON
      else check_pack_fields path json
  end.

(** [content] is what [load] makes of the file: [None] when it raises
    [JSONDecodeError]. *)
Definition check_pack_mcmeta (path : string) (content : option JSON) : M unit :=
  match content with
  | Some json => check_pack_loaded path (Some json)
  | None =>
      reset <- ask PackMcmetaJsonError;;
      if reset : bool then dump (pack_mcmeta path) DEFAULT_JSON
      else check_pack_loaded path None
  end.

(** ** [check_json_error] *)

Definition check_json_error (file_path : Path) (content : option JSON)
  : result JSON :=
  match content with
  | Some json => Normal json
  | None => Raise (NoQuickFix (MalformedJson file_path))
  end.

(** ** [sorted] with a key

    The built-in is a stable sort that compares keys with [<] only; an
    insertion sort that walks past the strictly smaller keys is one. *)

Fixpoint traverse {A B} (f : A -> result B) (l : list A) : result (list B) :=
  match l with
  | [] => Normal []
  | x :: l' => y <-? f x;; ys <-? traverse f l';; Normal (y :: ys)
  end.

Fixpoint insert_keyed (kx : JSON * JSON) (l : list (JSON * JSON))
  : result (list (JSON * JSON)) :=
  match l with
  | [] => Normal [kx]
  | ky :: l' =>
      less <-? Py.lt (fst ky) (fst kx);;
      if less : bool then rest <-? insert_keyed kx l';; Normal (ky :: rest)
      else Normal (kx :: ky :: l')
  end.

Fixpoint sort_keyed (l : list (JSON * JSON)) : result (list (JSON * JSON)) :=
  match l with
  | [] => Normal []
  | kx :: l' => s <-? sort_keyed l';; insert_keyed kx s
  end.

Definition sorted (l : list JSON) (key : JSON -> result JSON)
  : result (list JSON) :=
  keys <-? traverse key l;;
  s <-? sort_keyed (combine keys l);;
  Normal (map snd s).

(** ** [check_vanilla_json] *)

(** [override["predicate"]["custom_model_data"]] *)
Definition custom_model_data_of (override : JSON) : result JSON :=
  predicate <-? Py.getitem override "predicate";;
  Py.getitem predicate "custom_model_data".

(** [except KeyError as error: raise NoQuickFix(error.args[0])] *)
Definition except_KeyError {A} (r : result A) : result A :=
  match r with
  | Raise (KeyError key) => Raise (NoQuickFix (KeyErrorArg key))
  | _ => r
  end.

(** Lines 133-139. *)
Fixpoint scan_duplicates (file_path : Path) (last_custom_model_data : JSON)
  (custom_model_data : list JSON) : result unit :=
  match custom_model_data with
  | [] => Normal tt
  | number :: rest =>
      if Py.eq number last_custom_model_data
      then Raise (NoQuickFix (DuplicateCustomModelData number file_path))
      else scan_duplicates file_path number rest
  end.

(** Lines 147-149: the overrides after the loop has stored every fixed
    name back. *)
Fixpoint fix_models (overrides : list JSON) : M (list JSON) :=
  match overrides with
  | [] => ret []
  | override :: rest =>
      model <- lift (Py.getitem override "model");;
      fixed <- fix_name_value model;;
      override' <- lift (Py.setitem override "model" (snd fixed));;
      rest' <- fix_models rest;;
      ret (override' :: rest')
  end.

(** Lines 140-152: what follows the duplicate scan. *)
Definition rearrange_and_fix (file_path : Path) (json : JSON)
  (overrides : list JSON) : M (list JSON) :=
  sorted_overrides <- lift (sorted overrides custom_model_data_of);;
  rearrange <-
    (if negb (Py.eq (JList overrides) (JList sorted_overrides))
     then ask (NotAscending file_path) else ret false);;
  overrides <-
    (if rearrange : bool then
       json' <- lift (Py.setitem json "overrides" (JList sorted_overrides));;
       dump file_path json';;
       ret sorted_overrides
     else ret overrides);;
  overrides <- fix_models overrides;;
  lift (traverse (fun override => Py.getitem override "model") overrides).

Definition check_vanilla_json (file_path : Path) (json : JSON) : M (list JSON) :=
  has_overrides <- lift (Py.contains json "overrides");;
  if negb has_overrides then raise (NoQuickFix (OverridesKeyMissing file_path))
  else
    value <- lift (Py.getitem json "overrides");;
    match value with
    | JList overrides =>
        custom_model_data <-
          lift (except_KeyError
                  (_ <-? (first <-? Py.first overrides;; custom_model_data_of first);;
                   traverse custom_model_data_of overrides));;
        lift (scan_duplicates file_path (JInt (-1)) custom_model_data);;
        rearrange_and_fix file_path json overrides
    | _ => raise (NoQuickFix (OverridesNotList file_path))
    end.

(** ** [check_custom_json] *)

Definition missing_marker : string := String PyStr.dquote "#missing".

(** The dict comprehension of line 166; the keys of a loaded dict are
    distinct, so the new dict has the same keys in the same order. *)
Fixpoint fix_textures (items : list (string * JSON)) : M (list (string * JSON)) :=
  match items with
  | [] => ret []
  | (key, texture) :: rest =>
      fixed <- fix_name_value texture;;
      rest' <- fix_textures rest;;
      ret ((key, snd fixed) :: rest')
  end.

Definition check_custom_json (file_path : Path) (json : JSON) : M (list JSON) :=
  textures <- lift (Py.getitem json "textures");;
  match textures with
  | JDict items =>
      has_elements <- lift (Py.contains json "elements");;
      if negb has_elements then raise (NoQuickFix (ElementsKeyMissing file_path))
      else if PyStr.contains missing_marker (Dumps.dumps json)
      then raise (NoQuickFix (MissingTextureFound file_path))
      else
        fixed_textures <- fix_textures items;;
        replace <-
          (if negb (Py.eq (JDict items) (JDict fixed_textures))
           then ask (InvalidTextures file_path) else ret false);;
        if replace : bool then
          json' <- lift (Py.setitem json "textures" (JDict fixed_textures));;
          dump file_path json';;
          ret (map snd fixed_textures)
        else ret (map snd items)
  | _ => raise (NoQuickFix (TexturesNotJson file_path))
  end.

(** ** [is_vanilla_json] *)

Definition is_vanilla_json (file_path : Path) (json : JSON) : result bool :=
  has_textures <-? Py.contains json "textures";;
  if negb has_textures
  then Raise (ResourcePackError (TexturesKeyMissing file_path))
  else
    has_parent <-? Py.contains json "parent";;
    if negb has_parent then Normal false
    else
      textures <-? Py.getitem json "textures";;
      has_layer0 <-? Py.contains textures "layer0";;
      if negb has_layer0 then Normal false
      else
        layer0 <-? Py.getitem textures "layer0";;
        Normal (Py.eq layer0 (JStr ("item/" +:+ stem file_path))).

(** ** [check_files]: the four sets, the routing of a loaded document and
    the report after the walk *)

Record names := mkNames {
  set_of_model_file : gset string;
  set_of_model_key : gset string;
  set_of_textures_file : gset string;
  set_of_textures_key : gset string
}.

Definition no_names : names := mkNames ∅ ∅ ∅ ∅.

(** [for x in values: s.add(x)].  Both validators return values that went
    through [fix_name], which only a [str] survives. *)
Fixpoint add_each (values : list JSON) (s : gset string) : gset string :=
  match values with
  | [] => s
  | JStr x :: rest => add_each rest ({[x]} ∪ s)
  | _ :: rest => add_each rest s
  end.

(** Lines 224-231.  [rel_parent] is
    [file_path.relative_to(model_dir).parent.as_posix()]. *)
Definition check_document (file_path : Path) (rel_parent : string)
  (json : JSON) (n : names) : M names :=
  vanilla <- lift (is_vanilla_json file_path json);;
  if vanilla : bool then
    models <- check_vanilla_json file_path json;;
    ret (mkNames (set_of_model_file n) (add_each models (set_of_model_key n))
                 (set_of_textures_file n) (set_of_textures_key n))
  else
    let model_file := {[rel_parent +:+ "/" +:+ stem file_path]} ∪ set_of_model_file n in
    textures <- check_custom_json file_path json;;
    ret (mkNames model_file (set_of_model_key n)
                 (set_of_textures_file n) (add_each textures (set_of_textures_key n))).

(** [if (diff := a - b): strings.append(...)] *)
Definition append_if_any (label : string) (diff : gset string)
  (strings : list (string * gset string)) : list (string * gset string) :=
  if decide (diff = ∅) then strings else strings ++ [(label, diff)].

(** Lines 233-247. *)
Definition report_unmatched (n : names) : result unit :=
  let strings := [] in
  let strings :=
    append_if_any "File not found for model keys"
      (set_of_model_key n ∖ set_of_model_file n) strings in
  let strings :=
    append_if_any "Unused model files"
      (set_of_model_file n ∖ set_of_model_key n) strings in
  let strings :=
    append_if_any "File not found for texture keys"
      (set_of_textures_key n ∖ set_of_textures_file n) strings in
  let strings :=
    append_if_any "Unused texture files"
      (set_of_textures_file n ∖ set_of_textures_key n) strings in
  match strings with
  | [] => Normal tt
  | _ :: _ => Raise (NoQuickFix (UnmatchedNames strings))
  end.

(** ** [diagnose]: which [except] clause takes an exception *)

Inductive handler : Type :=
| ExceptResourcePackError   (* message, then exit *)
| ExceptNoQuickFix          (* message, no quick-fix available, try again *)
| ExceptException.          (* traceback for the author, then exit *)

Definition diagnose_except (e : exn) : handler :=
  match e with
  | ResourcePackError _ => ExceptResourcePackError
  | NoQuickFix _ => ExceptNoQuickFix
  | _ => ExceptException
  end.

(** ** The specification's vocabulary *)

(** A string needs fixing when it contains an uppercase character or a
    space. *)
Definition needs_fix (s : string) : bool :=
  PyStr.any PyStr.isupper_char s || PyStr.has_space s.

(** The normalized form: spaces replaced by underscores, then lowercased. *)
Definition normalized (s : string) : string :=
  PyStr.lower (PyStr.replace_space s).

(** Two equal values stand next to each other. *)
Fixpoint adjacent_equal (l : list JSON) : bool :=
  match l with
  | a :: (b :: _) as rest => Py.eq b a || adjacent_equal rest
  | _ => false
  end.

(** A list of integers in ascending order. *)
Fixpoint ascending (l : list Z) : bool :=
  match l with
  | a :: (b :: _) as rest => Z.leb a b && ascending rest
  | _ => true
  end.

(** A list of discriminators in ascending order: none is smaller than
    the one before it. *)
Fixpoint ascending_keys (keys : list JSON) : bool :=
  match keys with
  | a :: (b :: _) as rest =>
      match Py.lt b a with
      | Normal false => ascending_keys rest
      | _ => false
      end
  | _ => true
  end.

(** The events a call appends to the log. *)
Definition is_name_prompt (e : event) : Prop :=
  exists s, e = Asked (InvalidFileName s).

(** ** Definitions used by the proofs *)

(** Structural induction on loaded values, through lists and dicts. *)
Section JSON_induction.

Variable P : JSON -> Prop.
Hypothesis HNull : P JNull.
Hypothesis HBool : forall b, P (JBool b).
Hypothesis HInt : forall n, P (JInt n).
Hypothesis HStr : forall s, P (JStr s).
Hypothesis HList : forall l, Forall P l -> P (JList l).
Hypothesis HDict : forall d, Forall (fun kv => P (snd kv)) d -> P (JDict d).

Fixpoint JSON_ind (v : JSON) : P v :=
  match v with
  | JNull => HNull
  | JBool b => HBool b
  | JInt n => HInt n
  | JStr s => HStr s
  | JList l =>
      HList l
        ((fix all (l : list JSON) : Forall P l :=
            match l with
            | [] => List.Forall_nil _
            | x :: l' => List.Forall_cons _ _ _ (JSON_ind x) (all l')
            end) l)
  | JDict d =>
      HDict d
        ((fix all (d : list (string * JSON)) : Forall (fun kv => P (snd kv)) d :=
            match d with
            | [] => List.Forall_nil _
            | kv :: d' => List.Forall_cons _ _ _ (JSON_ind (snd kv)) (all d')
            end) d)
  end.

End JSON_induction.

Fixpoint eq_lists (l m : list JSON) : bool :=
  match l, m with
  | [], [] => true
  | x :: l', y :: m' => Py.eq x y && eq_lists l' m'
  | _, _ => false
  end.

Definition has_item (e : list (string * JSON)) (kv : string * JSON) : bool :=
  existsb (fun kw => String.eqb (fst kv) (fst kw) && Py.eq (snd kv) (snd kw)) e.

(** Every event a computation logs satisfies [P]. *)
Definition appends {A} (P : event -> Prop) (m : M A) : Prop :=
  forall w, exists events,
    log (snd (m w)) = log w ++ events /\ Forall P events.

(** The exceptions of Python itself, as opposed to the two the diagnoser
    defines. *)
Definition python_error (e : exn) : Prop :=
  match e with
  | NoQuickFix _ | ResourcePackError _ => False
  | _ => True
  end.

(** A computation that raises raises one of Python's own exceptions. *)
Definition raises_python {A} (m : M A) : Prop :=
  forall w e, fst (m w) = Raise e -> python_error e.

(** The insertion sort of [sorted], on entries paired with the integer
    their key is. *)
Fixpoint insert_int (kx : Z * JSON) (l : list (Z * JSON)) : list (Z * JSON) :=
  match l with
  | [] => [kx]
  | ky :: l' =>
      if Z.ltb (fst ky) (fst kx) then ky :: insert_int kx l'
      else kx :: ky :: l'
  end.

Fixpoint sort_int (l : list (Z * JSON)) : list (Z * JSON) :=
  match l with
  | [] => []
  | kx :: l' => insert_int kx (sort_int l')
  end.

Definition tag (kx : Z * JSON) : JSON * JSON := (JInt (fst kx), snd kx).

Definition keyed (kx : Z * JSON) : Prop :=
  custom_model_data_of (snd kx) = Normal (JInt (fst kx)).

Definition with_key (z : Z) (kx : Z * JSON) : bool := Z.eqb (fst kx) z.

(** Example documents of the Standard shape. *)
Definition override_entry (number : JSON) (model : string) : JSON :=
  JDict [("predicate", JDict [("custom_model_data", number)]);
         ("model", JStr model)].

Definition vanilla_document (overrides : list JSON) : JSON :=
  JDict [("parent", JStr "item/generated");
         ("textures", JDict [("layer0", JStr "item/sword")]);
         ("overrides", JList overrides)].

Definition sword_json : Path := mkPath "assets/minecraft/models/item" "sword.json".

Definition fixed_from (s : string) (v : JSON) : Prop :=
  v = JStr s \/ v = JStr (normalized s).

(** ** Bookkeeping of a run *)

Definition is_asked (e : event) : bool :=
  match e with
  | Asked _ => true
  | Dumped _ _ => false
  end.

(** What a computation does to the world besides its result: it appends
    events to the log, leaves [AUTO_FIX] alone, sets [is_error_exist] when
    it asks, and reads no input while [AUTO_FIX] is set. *)
Definition accounted {A} (m : M A) : Prop :=
  forall w, exists events,
    log (snd (m w)) = log w ++ events
    /\ AUTO_FIX (snd (m w)) = AUTO_FIX w
    /\ is_error_exist (snd (m w)) = is_error_exist w || existsb is_asked events
    /\ (AUTO_FIX w = true -> stdin (snd (m w)) = stdin w).

(** A [pack.mcmeta] that [check_pack_mcmeta] can repair: unreadable, or an
    object whose ["pack"] entry is absent or an object itself. *)
Definition repairable (content : option JSON) : bool :=
  match content with
  | None => true
  | Some (JDict d) =>
      match Py.dict_get d "pack" with
      | None | Some (JDict _) => true
      | Some _ => false
      end
  | Some _ => false
  end.

(** A [pack.mcmeta] with nothing to repair. *)
Definition complete_pack (doc : JSON) : Prop :=
  exists d pack n,
    doc = JDict d
    /\ Py.dict_get d "pack" = Some (JDict pack)
    /\ Py.dict_get pack "pack_format" = Some (JInt n)
    /\ Py.dict_has pack "description" = true.

(** The world after one more event. *)
Definition logged (w : world) (events : list event) : world :=
  mkWorld (AUTO_FIX w) (is_error_exist w) (stdin w) (log w ++ events).

(** The ["pack"] object as [check_pack_mcmeta] leaves it when every fix is
    accepted: ["pack_format"] set to the default unless it holds an [int],
    ["description"] added when it is absent. *)
Definition repaired_pack (pack : list (string * JSON)) : list (string * JSON) :=
  let pack :=
    match Py.dict_get pack "pack_format" with
    | Some (JInt _) => pack
    | _ => Py.dict_set pack "pack_format" DEFAULTS_pack_format
    end in
  if Py.dict_has pack "description" then pack
  else Py.dict_set pack "description" DEFAULTS_description.

(** The questions [check_pack_mcmeta] asks about such an object. *)
Definition pack_questions (pack : list (string * JSON)) : list event :=
  match Py.dict_get pack "pack_format" with
  | None => [Asked PackFormatMissing]
  | Some (JInt _) => []
  | Some _ => [Asked PackFormatNotWhole]
  end ++
  (if Py.dict_has pack "description" then [] else [Asked DescriptionMissing]).

(** What [check_vanilla_json] may log for the file [p] of a document
    with entries [d] and overrides [overrides]: prompts of [fix_name], the
    prompt to rearrange, and the rewrite of the document with its
    overrides rearranged. *)
Definition vanilla_event (p : Path) (d : list (string * JSON))
  (overrides : list JSON) (e : event) : Prop :=
  is_name_prompt e
  \/ e = Asked (NotAscending p)
  \/ exists sorted_overrides,
       Permutation overrides sorted_overrides
       /\ e = Dumped p (JDict (Py.dict_set d "overrides" (JList sorted_overrides))).

(** [override["model"]] *)
Definition model_of (override : JSON) : result JSON := Py.getitem override "model".

(** The ["model"] of every override is ASCII text. *)
Definition ascii_models (overrides : list JSON) : bool :=
  forallb (fun override =>
             match model_of override with
             | Normal (JStr s) => PyStr.isascii s
             | _ => true
             end) overrides.

(** The items of an object as [dumps] writes them between the braces. *)
Fixpoint dumps_items (d : list (string * JSON)) : string :=
  match d with
  | [] => ""
  | [(k, x)] => Dumps.quoted k +:+ ": " +:+ Dumps.dumps x
  | (k, x) :: d' =>
      Dumps.quoted k +:+ ": " +:+ Dumps.dumps x +:+ ", " +:+ dumps_items d'
  end.

(** A name [fix_name] returns without asking. *)
Definition passes_fix_name (s : string) : bool :=
  PyStr.islower s && negb (PyStr.has_space s).

(** The names among values, as a set. *)
Definition names_of (values : list JSON) : gset string :=
  add_each values ∅.

(** ** Loaded objects and their keys *)

(** No key occurs twice. *)
Fixpoint distinct (keys : list string) : bool :=
  match keys with
  | [] => true
  | key :: keys' => negb (existsb (String.eqb key) keys') && distinct keys'
  end.

(** What [json.load] returns: in every object of the value the keys are
    distinct. *)
Fixpoint distinct_keys (v : JSON) : bool :=
  match v with
  | JList l => forallb distinct_keys l
  | JDict d =>
      distinct (map fst d)
      && (fix all (d : list (string * JSON)) : bool :=
            match d with
            | [] => true
            | (_, x) :: d' => distinct_keys x && all d'
            end) d
  | _ => true
  end.

(** ** The answers to the prompts of [check_custom_json] *)

(** The texture references after the prompts of [fix_name], which takes
    one answer for each reference that does not pass its test: a
    confirmed fix gives the normalized reference, a declined one the
    reference as it stands.  The answers not used are returned with
    them; [None] when the answers run out. *)
Fixpoint offered_fixes (strs : list string) (answers : list bool)
  : option (list string * list bool) :=
  match strs with
  | [] => Some ([], answers)
  | s :: strs' =>
      if passes_fix_name s then
        match offered_fixes strs' answers with
        | Some (fixed, rest) => Some (s :: fixed, rest)
        | None => None
        end
      else
        match answers with
        | [] => None
        | answer :: answers' =>
            match offered_fixes strs' answers' with
            | Some (fixed, rest) =>
                Some ((if answer : bool then normalized s else s) :: fixed, rest)
            | None => None
            end
        end
  end.

(** The references returned for a textures map holding [strs]: when
    every fixed reference is the document's own, these; otherwise one
    more answer decides between the fixed references and the document's
    own. *)
Definition returned_textures (strs : list string) (answers : list bool)
  : option (list string) :=
  match offered_fixes strs answers with
  | None => None
  | Some (fixed, rest) =>
      if bool_decide (fixed = strs) then Some strs
      else
        match rest with
        | [] => None
        | rewrite :: _ => Some (if rewrite : bool then fixed else strs)
        end
  end.

(** ** [check_non_json] and [check_non_png] *)

(** [s[i:]] *)
Fixpoint str_drop (i : nat) (s : string) : string :=
  match i, s with
  | S i', String _ s' => str_drop i' s'
  | _, _ => s
  end.

(** [PurePath.suffix]: the name from its last dot on, unless that dot is
    the first or the last character. *)
Definition suffix (p : Path) : string :=
  match PyStr.rfind_dot (name p) with
  | Some i =>
      if (Nat.ltb 0 i) && (Nat.ltb i (String.length (name p) - 1))
      then str_drop i (name p)
      else ""
  | None => ""
  end.

(** [s.endswith(end)] *)
Fixpoint endswith (s ending : string) : bool :=
  String.eqb ending s ||
  match s with
  | EmptyString => false
  | String _ s' => endswith s' ending
  end.

(** Both functions return nothing; what the embedding returns is the
    path they ask the file system to rename the file to, if they ask. *)
Definition check_non_json (file_path : Path) : M (option Path) :=
  if negb (String.eqb (suffix file_path) ".json") then
    yes <- ask (NotJsonFile file_path);;
    if yes : bool then
      if endswith (stem file_path) ".json"
      then ret (Some (mkPath (parent file_path) (stem file_path)))
      else ret (Some (mkPath (parent file_path) (stem file_path +:+ ".json")))
    else ret None
  else ret None.

Definition check_non_png (file_path : Path) : M (option Path) :=
  if negb (String.eqb (suffix file_path) ".png") then
    yes <- ask (NotPngFile file_path);;
    if yes : bool then
      if endswith (stem file_path) ".json"
      then ret (Some (mkPath (parent file_path) (stem file_path)))
      else ret (Some (mkPath (parent file_path) (stem file_path +:+ ".png")))
    else ret None
  else ret None.

(** The answer a line of input gives to [ask], if it gives one. *)
Definition answer_of (line : string) : option bool :=
  let answer := PyStr.lower line in
  if String.eqb answer "yes" || String.eqb answer "y" then Some true
  else if String.eqb answer "no" || String.eqb answer "n" then Some false
  else None.

Definition slash : ascii := ascii_of_nat 47.

(** ** [diagnose] *)

Section Diagnose.

(** [getpass] reads from the terminal, and [_diagnose] is the run it
    guards. *)
Variable getpass : M unit.
Variable _diagnose : M unit.

Definition set_is_error_exist (w : world) : world :=
  mkWorld (AUTO_FIX w) true (stdin w) (log w).

(** The call [diagnose()] of line 308 lacks the argument [path]. *)
Definition diagnose : M unit :=
  fun w =>
    match _diagnose w with
    | (Normal tt, w1) => (Normal tt, w1)
    | (Raise (ResourcePackError _), w1) => getpass w1
    | (Raise (NoQuickFix _), w1) =>
        (getpass;; raise TypeError) (set_is_error_exist w1)
    | (Raise _, w1) => getpass w1
    end.

End Diagnose.

(** * Properties *)

(** ** Characters and strings *)

Section Strings.

Import PyStr.

Local Ltac by_cases c :=
  destruct c as [[] [] [] [] [] [] [] []]; vm_compute; congruence.

Lemma lower_char_not_upper c :
  isupper_char (lower_char (if Ascii.eqb space c then underscore else c)) = false.
Proof. by_cases c. Qed.

Lemma lower_char_cased c :
  iscased_char (lower_char (if Ascii.eqb space c then underscore else c))
  = iscased_char c.
Proof. by_cases c. Qed.

Lemma lower_char_not_space c :
  Ascii.eqb space (lower_char (if Ascii.eqb space c then underscore else c)) = false.
Proof. by_cases c. Qed.

Lemma lower_char_clean c :
  isupper_char c || Ascii.eqb space c = false ->
  lower_char (if Ascii.eqb space c then underscore else c) = c.
Proof. by_cases c. Qed.

Lemma any_map p f s : any p (map f s) = any (fun c => p (f c)) s.
Proof. induction s as [|c s IH]; simpl; [reflexivity | now rewrite IH]. Qed.

Lemma any_ext p q s : (forall c, p c = q c) -> any p s = any q s.
Proof.
  intros E. induction s as [|c s IH]; simpl; [reflexivity | now rewrite E, IH].
Qed.

Lemma any_false s : any (fun _ => false) s = false.
Proof. induction s as [|c s IH]; simpl; auto. Qed.

Lemma normalized_no_upper s : any isupper_char (normalized s) = false.
Proof.
  unfold normalized, lower, replace_space. rewrite !any_map.
  rewrite (any_ext _ (fun _ => false)) by apply lower_char_not_upper.
  apply any_false.
Qed.

Lemma normalized_no_space s : has_space (normalized s) = false.
Proof.
  unfold has_space, normalized, lower, replace_space. rewrite !any_map.
  rewrite (any_ext _ (fun _ => false)) by apply lower_char_not_space.
  apply any_false.
Qed.

Lemma normalized_cased s : any iscased_char (normalized s) = any iscased_char s.
Proof.
  unfold normalized, lower, replace_space. rewrite !any_map.
  apply any_ext, lower_char_cased.
Qed.

Lemma normalized_clean s : needs_fix (normalized s) = false.
Proof.
  unfold needs_fix. now rewrite normalized_no_upper, normalized_no_space.
Qed.

Lemma normalized_id s : needs_fix s = false -> normalized s = s.
Proof.
  unfold needs_fix, normalized, lower, replace_space, has_space.
  induction s as [|c s IH]; cbn [any map]; [reflexivity|].
  intros H.
  apply orb_false_iff in H as [H1 H2].
  apply orb_false_iff in H1 as [Hu Hus], H2 as [Hp Hps].
  rewrite lower_char_clean by (now rewrite Hu, Hp).
  f_equal. apply IH. now rewrite Hus, Hps.
Qed.

Lemma normalized_idem s : normalized (normalized s) = normalized s.
Proof. apply normalized_id, normalized_clean. Qed.

(** With a letter or a space in the string, the guard of [fix_name] is
    the negation of [needs_fix]. *)
Lemma guard_needs_fix s :
  any iscased_char s || has_space s = true ->
  islower s && negb (has_space s) = negb (needs_fix s).
Proof.
  unfold islower, needs_fix.
  destruct (any isupper_char s), (any iscased_char s), (has_space s);
    simpl; congruence.
Qed.

End Strings.

(** ** [ask] and [fix_name] *)

Lemma ask_next q w answer :
  next_answer w = Some answer ->
  exists w', ask q w = (Normal answer, w')
             /\ AUTO_FIX w' = AUTO_FIX w
             /\ log w' = log w ++ [Asked q].
Proof.
  unfold next_answer, ask. simpl.
  destruct (AUTO_FIX w) eqn:A.
  - intros [= <-]. eexists. split; [reflexivity|]. simpl. auto.
  - destruct (read_answer (stdin w)) as [[a rest]|]; simpl; [|discriminate].
    intros [= <-]. eexists. split; [reflexivity|]. simpl. auto.
Qed.

Lemma fix_name_clean s w :
  PyStr.islower s && negb (PyStr.has_space s) = true ->
  fix_name s w = (Normal (false, s), w).
Proof. intros H. unfold fix_name. now rewrite H. Qed.

(** Once a name with a letter has been normalized, [fix_name] leaves it
    alone and asks nothing. *)
Lemma fix_name_normalized s w :
  PyStr.any PyStr.iscased_char s = true ->
  fix_name (normalized s) w = (Normal (false, normalized s), w).
Proof.
  intros H. apply fix_name_clean.
  unfold PyStr.islower.
  now rewrite normalized_no_upper, normalized_no_space, normalized_cased, H.
Qed.

(** C2 (amended): for an ASCII string with at least one letter (A-Z or
    a-z) or a space, the flag [fix_name] returns is true exactly when the
    string contains an uppercase character or a space and the
    confirmation is given; the string returned is then the input with
    spaces replaced by underscores and lowercased, and the input itself
    otherwise. *)
Theorem fix_name_flag s w answer :
  PyStr.isascii s = true ->
  PyStr.any PyStr.iscased_char s || PyStr.has_space s = true ->
  next_answer w = Some answer ->
  fst (fix_name s w)
  = Normal (needs_fix s && answer,
            if needs_fix s && answer then normalized s else s).
Proof.
  intros _ Hs Ha. unfold fix_name.
  rewrite (guard_needs_fix s Hs).
  destruct (needs_fix s); simpl; [|reflexivity].
  unfold bind. destruct (ask_next (InvalidFileName s) w answer Ha) as (w' & -> & _).
  now destruct answer.
Qed.

Lemma fix_name_flag_witness :
  fst (fix_name "A b" (mkWorld false false ["yes"] []))
  = Normal (true, "a_b").
Proof.
  apply (fix_name_flag "A b" (mkWorld false false ["yes"] []) true); reflexivity.
Defined.

(** C2 (as stated) fails: a declined confirmation returns a false flag for
    a string that contains an uppercase character. *)
Lemma fix_name_declined_counterexample :
  needs_fix "A" = true
  /\ fst (fix_name "A" (mkWorld false false ["no"] [])) = Normal (false, "A").
Proof. split; reflexivity. Qed.

(** C5: the string ["1"] is in normalized form, yet with every fix
    confirmed [fix_name] prompts for it and reports it as fixed, and does
    so again on its own output. *)
Theorem fix_name_uncased_not_idempotent :
  let w := mkWorld true false [] [] in
  needs_fix "1" = false
  /\ normalized "1" = "1"
  /\ fix_name "1" w
     = (Normal (true, "1"), mkWorld true true [] [Asked (InvalidFileName "1")])
  /\ fst (fix_name "1" (snd (fix_name "1" w))) = Normal (true, "1").
Proof. repeat split; reflexivity. Qed.

(** ** Loaded values: induction, equality, dict access *)



Lemma eq_JList l m : Py.eq (JList l) (JList m) = eq_lists l m.
Proof.
  revert m. induction l as [|x l IH]; intros [|y m]; reflexivity.
Qed.

Lemma eq_JDict d e :
  Py.eq (JDict d) (JDict e)
  = Nat.eqb (length d) (length e) && forallb (has_item e) d.
Proof.
  cbn [Py.eq]. f_equal.
  induction d as [|[k v] d IH]; [reflexivity|].
  cbn [forallb]. rewrite <- IH. reflexivity.
Qed.

Lemma py_eq_refl v : Py.eq v v = true.
Proof.
  induction v as [| b | n | s | l IH | d IH] using JSON_ind.
  - reflexivity.
  - destruct b; reflexivity.
  - apply Z.eqb_refl.
  - apply String.eqb_refl.
  - rewrite eq_JList. induction IH as [|x l Hx _ IHl]; cbn [eq_lists]; [reflexivity|].
    now rewrite Hx, IHl.
  - rewrite eq_JDict, Nat.eqb_refl. cbn [andb].
    apply forallb_forall. intros [k v] Hin.
    unfold has_item. apply existsb_exists. exists (k, v). split; [exact Hin|].
    cbn [fst snd]. rewrite String.eqb_refl. cbn [andb].
    rewrite Forall_forall in IH. apply (IH (k, v)).
    now apply list_elem_of_In.
Qed.

Lemma eq_JStr v s : Py.eq v (JStr s) = true <-> v = JStr s.
Proof.
  split.
  - destruct v; cbn [Py.eq]; try discriminate.
    intros H. apply String.eqb_eq in H. now subst.
  - intros ->. apply py_eq_refl.
Qed.

Lemma dict_has_get d key :
  Py.dict_has d key = match Py.dict_get d key with Some _ => true | None => false end.
Proof.
  unfold Py.dict_has. induction d as [|[k v] d IH]; cbn [existsb Py.dict_get fst];
    [reflexivity|].
  destruct (String.eqb key k); [reflexivity | exact IH].
Qed.

Lemma dict_get_has d key v : Py.dict_get d key = Some v -> Py.dict_has d key = true.
Proof. intros H. now rewrite dict_has_get, H. Qed.

(** ** [is_vanilla_json] *)

(** C3 (amended): a document with a textures map is classified Standard
    exactly when it has a ["parent"] key and its textures map has a
    ["layer0"] entry equal to the string item/<stem> for the file's own
    stem; every other such document is handed to [check_custom_json]. *)
Theorem is_vanilla_json_iff p d t :
  Py.dict_get d "textures" = Some (JDict t) ->
  exists vanilla,
    is_vanilla_json p (JDict d) = Normal vanilla
    /\ (vanilla = true <->
        Py.dict_has d "parent" = true
        /\ Py.dict_get t "layer0" = Some (JStr ("item/" +:+ stem p)))
    /\ (vanilla = false ->
        forall rel_parent n w,
          check_document p rel_parent (JDict d) n w
          = (textures <- check_custom_json p (JDict d);;
             ret (mkNames ({[rel_parent +:+ "/" +:+ stem p]} ∪ set_of_model_file n)
                          (set_of_model_key n) (set_of_textures_file n)
                          (add_each textures (set_of_textures_key n)))) w).
Proof.
  intros Ht.
  assert (Hv : exists vanilla,
             is_vanilla_json p (JDict d) = Normal vanilla
             /\ (vanilla = true <->
                 Py.dict_has d "parent" = true
                 /\ Py.dict_get t "layer0" = Some (JStr ("item/" +:+ stem p)))).
  { unfold is_vanilla_json. cbn [Py.contains Py.getitem rbind].
    rewrite (dict_get_has _ _ _ Ht). cbn [negb].
    destruct (Py.dict_has d "parent"); cbn [negb].
    - rewrite Ht. cbn [rbind Py.contains Py.getitem]. rewrite dict_has_get.
      destruct (Py.dict_get t "layer0") as [layer0|]; cbn [negb rbind].
      + eexists. split; [reflexivity|]. rewrite eq_JStr. split.
        * intros ->. auto.
        * intros [_ [= ->]]. reflexivity.
      + exists false. split; [reflexivity|]. split; [discriminate|].
        intros [_ [=]].
    - exists false. split; [reflexivity|]. split; [discriminate|].
      intros [[=] _]. }
  destruct Hv as (vanilla & Hr & Hiff). exists vanilla.
  split; [exact Hr|]. split; [exact Hiff|].
  intros ->. intros rel_parent n w. unfold check_document.
  rewrite Hr. reflexivity.
Qed.

Lemma is_vanilla_json_iff_witness :
  exists vanilla,
    is_vanilla_json (mkPath "models/item" "sword.json")
      (JDict [("parent", JStr "item/generated");
              ("textures", JDict [("layer0", JStr "item/sword")])])
    = Normal vanilla
    /\ vanilla = true.
Proof.
  destruct (is_vanilla_json_iff (mkPath "models/item" "sword.json")
              [("parent", JStr "item/generated");
               ("textures", JDict [("layer0", JStr "item/sword")])]
              [("layer0", JStr "item/sword")] eq_refl)
    as (vanilla & Hr & Hiff & _).
  exists vanilla. split; [exact Hr|]. apply Hiff. split; reflexivity.
Defined.

(** C3 (as stated) fails: a document whose ["layer0"] is item/sword, in
    the file sword.json, is not classified Standard when it has no
    ["parent"] key. *)
Lemma is_vanilla_json_parent_counterexample :
  stem (mkPath "models/item" "sword.json") = "sword"
  /\ is_vanilla_json (mkPath "models/item" "sword.json")
       (JDict [("textures", JDict [("layer0", JStr "item/sword")])])
     = Normal false.
Proof. split; reflexivity. Qed.

(** C6 (amended): a document without a ["textures"] key makes the
    classifier raise [ResourcePackError], the error [diagnose] reports
    before exiting; nothing is asked and nothing is written. *)
Theorem textures_key_missing p d :
  Py.dict_has d "textures" = false ->
  is_vanilla_json p (JDict d) = Raise (ResourcePackError (TexturesKeyMissing p))
  /\ diagnose_except (ResourcePackError (TexturesKeyMissing p))
     = ExceptResourcePackError
  /\ forall rel_parent n w,
       check_document p rel_parent (JDict d) n w
       = (Raise (ResourcePackError (TexturesKeyMissing p)), w).
Proof.
  intros H.
  assert (Hr : is_vanilla_json p (JDict d)
               = Raise (ResourcePackError (TexturesKeyMissing p))).
  { unfold is_vanilla_json. cbn [Py.contains rbind]. now rewrite H. }
  repeat split; [exact Hr|].
  intros rel_parent n w. unfold check_document. now rewrite Hr.
Qed.

Lemma textures_key_missing_witness :
  is_vanilla_json (mkPath "models/item" "sword.json")
    (JDict [("elements", JList [])])
  = Raise (ResourcePackError (TexturesKeyMissing (mkPath "models/item" "sword.json"))).
Proof.
  apply (textures_key_missing (mkPath "models/item" "sword.json")
           [("elements", JList [])]).
  reflexivity.
Defined.

(** C6 (as stated) fails: for the document with only an ["elements"] key
    the classifier raises no [NoQuickFix], and [diagnose] does not take
    the clause that offers another try. *)
Lemma textures_key_missing_counterexample :
  let p := mkPath "models/item" "sword.json" in
  let json := JDict [("elements", JList [])] in
  Py.contains json "textures" = Normal false
  /\ (forall m, is_vanilla_json p json <> Raise (NoQuickFix m))
  /\ (forall e, is_vanilla_json p json = Raise e ->
                diagnose_except e <> ExceptNoQuickFix).
Proof.
  cbv zeta. repeat split.
  - intros m. discriminate.
  - intros e. intros [= <-]. discriminate.
Qed.

(** ** The report after the walk *)


(** ** Running in the monad *)

Section Monad_lemmas.

Context {A B : Type}.
Implicit Types (m : M A) (k : A -> M B) (P : event -> Prop).

Lemma appends_ret P (a : A) : appends P (ret a).
Proof. intros w. exists []. split; [now rewrite app_nil_r | constructor]. Qed.

Lemma appends_raise P e : appends P (raise e : M A).
Proof. intros w. exists []. split; [now rewrite app_nil_r | constructor]. Qed.

Lemma appends_lift P (r : result A) : appends P (lift r).
Proof. intros w. exists []. split; [now rewrite app_nil_r | constructor]. Qed.

Lemma appends_bind P m k :
  appends P m -> (forall a, appends P (k a)) -> appends P (bind m k).
Proof.
  intros Hm Hk w. unfold bind.
  destruct (Hm w) as (ev1 & E1 & F1).
  destruct (m w) as [[a|e] w1]; cbn [snd] in *.
  - destruct (Hk a w1) as (ev2 & E2 & F2).
    exists (ev1 ++ ev2). split.
    + now rewrite E2, E1, app_assoc.
    + now apply Forall_app.
  - exists ev1. auto.
Qed.

Lemma raises_python_ret (a : A) : raises_python (ret a).
Proof. intros w e. discriminate. Qed.

Lemma raises_python_lift (r : result A) :
  (forall e, r = Raise e -> python_error e) -> raises_python (lift r).
Proof. intros H w e. cbn. apply H. Qed.

Lemma raises_python_bind m k :
  raises_python m -> (forall a, raises_python (k a)) -> raises_python (bind m k).
Proof.
  intros Hm Hk w e. unfold bind. specialize (Hm w).
  destruct (m w) as [[a|e'] w1]; cbn [fst] in *.
  - apply Hk.
  - intros [= <-]. now apply Hm.
Qed.

End Monad_lemmas.

Lemma appends_ask (P : event -> Prop) q : P (Asked q) -> appends P (ask q).
Proof.
  intros HP w. exists [Asked q]. split; [|now repeat constructor].
  unfold ask. cbn.
  destruct (AUTO_FIX w); [reflexivity|].
  destruct (read_answer (stdin w)) as [[a rest]|]; reflexivity.
Qed.

Lemma appends_dump (P : event -> Prop) p doc : P (Dumped p doc) -> appends P (dump p doc).
Proof. intros HP w. exists [Dumped p doc]. split; [reflexivity | now repeat constructor]. Qed.

Lemma raises_python_ask q : raises_python (ask q).
Proof.
  intros w e. unfold ask. cbn.
  destruct (AUTO_FIX w); [discriminate|].
  destruct (read_answer (stdin w)) as [[a rest]|]; [discriminate|].
  intros [= <-]. exact I.
Qed.

Lemma raises_python_dump p doc : raises_python (dump p doc).
Proof. intros w e. discriminate. Qed.

Lemma getitem_python c key e : Py.getitem c key = Raise e -> python_error e.
Proof.
  destruct c; cbn; try (intros [= <-]; exact I).
  destruct (Py.dict_get d key); [discriminate | intros [= <-]; exact I].
Qed.

Lemma setitem_python c key v e : Py.setitem c key v = Raise e -> python_error e.
Proof. destruct c; cbn; first [discriminate | intros [= <-]; exact I]. Qed.

Lemma traverse_python {A B} (f : A -> result B) l e :
  (forall x e, f x = Raise e -> python_error e) ->
  traverse f l = Raise e -> python_error e.
Proof.
  intros Hf. induction l as [|x l IH]; cbn; [discriminate|].
  destruct (f x) eqn:Fx; cbn.
  - destruct (traverse f l); cbn; [discriminate|]. intros [= <-]. now apply IH.
  - intros [= <-]. eapply Hf, Fx.
Qed.

Lemma appends_fix_name s : appends is_name_prompt (fix_name s).
Proof.
  unfold fix_name. destruct (_ && _); [apply appends_ret|].
  apply appends_bind; [apply appends_ask; now exists s|].
  intros []; apply appends_ret.
Qed.

Lemma raises_python_fix_name s : raises_python (fix_name s).
Proof.
  unfold fix_name. destruct (_ && _); [apply raises_python_ret|].
  apply raises_python_bind; [apply raises_python_ask|].
  intros []; apply raises_python_ret.
Qed.

Lemma appends_fix_name_value v : appends is_name_prompt (fix_name_value v).
Proof.
  destruct v; try apply appends_raise.
  apply appends_bind; [apply appends_fix_name | intros; apply appends_ret].
Qed.

Lemma raises_python_fix_name_value v : raises_python (fix_name_value v).
Proof.
  destruct v; try (intros w e [= <-]; exact I).
  apply raises_python_bind; [apply raises_python_fix_name|].
  intros; apply raises_python_ret.
Qed.

Lemma appends_fix_models overrides : appends is_name_prompt (fix_models overrides).
Proof.
  induction overrides as [|override rest IH]; cbn [fix_models]; [apply appends_ret|].
  apply appends_bind; [apply appends_lift|]. intros model.
  apply appends_bind; [apply appends_fix_name_value|]. intros fixed.
  apply appends_bind; [apply appends_lift|]. intros override'.
  apply appends_bind; [exact IH|]. intros rest'. apply appends_ret.
Qed.

Lemma raises_python_fix_models overrides : raises_python (fix_models overrides).
Proof.
  induction overrides as [|override rest IH]; cbn [fix_models];
    [apply raises_python_ret|].
  apply raises_python_bind; [apply raises_python_lift, getitem_python|].
  intros model.
  apply raises_python_bind; [apply raises_python_fix_name_value|]. intros fixed.
  apply raises_python_bind; [apply raises_python_lift, setitem_python|].
  intros override'.
  apply raises_python_bind; [exact IH|]. intros rest'. apply raises_python_ret.
Qed.

(** ** Sorting integer discriminators *)

Section Integer_keys.

Lemma insert_keyed_int kx l :
  insert_keyed (tag kx) (map tag l) = Normal (map tag (insert_int kx l)).
Proof.
  induction l as [|ky l IH]; [reflexivity|].
  cbn [map insert_keyed insert_int]. unfold tag at 1 2. cbn [fst Py.lt Py.as_number rbind].
  destruct (Z.ltb (fst ky) (fst kx)); [|reflexivity].
  fold (tag kx). rewrite IH. reflexivity.
Qed.

Lemma sort_keyed_int l : sort_keyed (map tag l) = Normal (map tag (sort_int l)).
Proof.
  induction l as [|kx l IH]; [reflexivity|].
  cbn [map sort_keyed sort_int]. rewrite IH. cbn [rbind]. apply insert_keyed_int.
Qed.

Lemma insert_int_perm kx l : Permutation (kx :: l) (insert_int kx l).
Proof.
  induction l as [|ky l IH]; cbn [insert_int]; [reflexivity|].
  destruct (Z.ltb (fst ky) (fst kx)); [|reflexivity].
  rewrite <- IH. apply perm_swap.
Qed.

Lemma sort_int_perm l : Permutation l (sort_int l).
Proof.
  induction l as [|kx l IH]; cbn [sort_int]; [reflexivity|].
  rewrite <- insert_int_perm. now constructor.
Qed.

Lemma ascending_sorted l : ascending l = true <-> StronglySorted Z.le l.
Proof.
  induction l as [|a l IH]; [split; [constructor | reflexivity]|].
  destruct l as [|b l].
  - split; [repeat constructor | reflexivity].
  - change (ascending (a :: b :: l)) with (Z.leb a b && ascending (b :: l)).
    rewrite andb_true_iff, IH, Z.leb_le. split.
    + intros [Hab Hs]. constructor; [exact Hs|].
      constructor; [exact Hab|].
      apply StronglySorted_inv in Hs as [_ Hb].
      eapply Forall_impl; [exact Hb|]. intros c Hc. cbn in Hc. lia.
    + intros Hs. apply StronglySorted_inv in Hs as [Hs Ha].
      split; [|exact Hs]. now inversion Ha.
Qed.

Lemma insert_int_sorted kx l :
  StronglySorted Z.le (map fst l) ->
  StronglySorted Z.le (map fst (insert_int kx l)).
Proof.
  induction l as [|ky l IH]; cbn [insert_int map]; intros Hs.
  - repeat constructor.
  - apply StronglySorted_inv in Hs as [Hs Hy].
    destruct (Z.ltb (fst ky) (fst kx)) eqn:L; cbn [map].
    + apply Z.ltb_lt in L. constructor; [now apply IH|].
      rewrite <- (insert_int_perm kx l). cbn [map].
      constructor; [lia | exact Hy].
    + apply Z.ltb_ge in L. constructor; [now constructor|].
      constructor; [exact L|].
      eapply Forall_impl; [exact Hy|]. intros c Hc. cbn in Hc. lia.
Qed.

Lemma sort_int_sorted l : StronglySorted Z.le (map fst (sort_int l)).
Proof.
  induction l as [|kx l IH]; cbn [sort_int]; [constructor|].
  now apply insert_int_sorted.
Qed.

(** Stability: the entries with a given key come out in the order they
    went in. *)
Lemma insert_int_stable z kx l :
  List.filter (with_key z) (insert_int kx l) = List.filter (with_key z) (kx :: l).
Proof.
  induction l as [|ky l IH]; cbn [insert_int]; [reflexivity|].
  destruct (Z.ltb (fst ky) (fst kx)) eqn:L; [|reflexivity].
  apply Z.ltb_lt in L.
  cbn [List.filter] in *. rewrite IH. unfold with_key.
  destruct (Z.eqb_spec (fst kx) z), (Z.eqb_spec (fst ky) z); try reflexivity.
  lia.
Qed.

Lemma sort_int_stable z l :
  List.filter (with_key z) (sort_int l) = List.filter (with_key z) l.
Proof.
  induction l as [|kx l IH]; cbn [sort_int]; [reflexivity|].
  rewrite insert_int_stable. cbn [List.filter]. now rewrite IH.
Qed.

Lemma sort_int_ascending l : ascending (map fst l) = true -> sort_int l = l.
Proof.
  induction l as [|kx l IH]; cbn [sort_int]; [reflexivity|].
  destruct l as [|ky l]; [reflexivity|].
  change (ascending (map fst (kx :: ky :: l)))
    with (Z.leb (fst kx) (fst ky) && ascending (map fst (ky :: l))).
  intros [Hle Hs]%andb_true_iff. rewrite (IH Hs). cbn [insert_int].
  apply Z.leb_le in Hle. destruct (Z.ltb_spec (fst ky) (fst kx)); [lia | reflexivity].
Qed.

Lemma combine_tag zs (l : list JSON) :
  combine (map JInt zs) l = map tag (combine zs l).
Proof.
  revert l. induction zs as [|z zs IH]; intros [|x l]; cbn; try reflexivity.
  now rewrite IH.
Qed.

Lemma map_snd_tag l : map snd (map tag l) = map snd l.
Proof. induction l as [|kx l IH]; cbn; [reflexivity | now rewrite IH]. Qed.

Lemma combine_fst_snd (l : list (Z * JSON)) : combine (map fst l) (map snd l) = l.
Proof. induction l as [|[z x] l IH]; cbn; [reflexivity | now rewrite IH]. Qed.

Lemma traverse_keyed overrides zs :
  traverse custom_model_data_of overrides = Normal (map JInt zs) ->
  Forall keyed (combine zs overrides)
  /\ map fst (combine zs overrides) = zs
  /\ map snd (combine zs overrides) = overrides.
Proof.
  revert zs. induction overrides as [|x l IH]; intros zs; cbn [traverse].
  - destruct zs; [|discriminate]. intros _. repeat split. constructor.
  - destruct (custom_model_data_of x) as [y|] eqn:Fx; cbn [rbind]; [|discriminate].
    destruct (traverse custom_model_data_of l) as [ys|]; cbn [rbind]; [|discriminate].
    destruct zs as [|z zs]; [discriminate|]. cbn [map]. intros [= -> ->].
    destruct (IH zs eq_refl) as (Hk & Hf & Hs). cbn [combine map fst snd].
    repeat split; [|now rewrite Hf | now rewrite Hs].
    constructor; [exact Fx | exact Hk].
Qed.

Lemma keyed_traverse l :
  Forall keyed l ->
  traverse custom_model_data_of (map snd l) = Normal (map JInt (map fst l)).
Proof.
  induction 1 as [|kx l Hx _ IH]; [reflexivity|].
  cbn [map traverse]. unfold keyed in Hx. rewrite Hx. cbn [rbind].
  rewrite IH. reflexivity.
Qed.

Lemma sorted_int overrides zs :
  traverse custom_model_data_of overrides = Normal (map JInt zs) ->
  sorted overrides custom_model_data_of
  = Normal (map snd (sort_int (combine zs overrides))).
Proof.
  intros H. unfold sorted. rewrite H. cbn [rbind].
  rewrite combine_tag, sort_keyed_int. cbn [rbind]. now rewrite map_snd_tag.
Qed.

Lemma ascending_keys_int zs : ascending_keys (map JInt zs) = ascending zs.
Proof.
  induction zs as [|a zs IH]; [reflexivity|].
  destruct zs as [|b zs]; [reflexivity|].
  change (ascending (a :: b :: zs)) with (Z.leb a b && ascending (b :: zs)).
  rewrite <- IH. cbn [map ascending_keys Py.lt Py.as_number].
  rewrite Z.ltb_antisym. now destruct (Z.leb a b).
Qed.

Lemma sort_keyed_ascending l :
  ascending_keys (map fst l) = true -> sort_keyed l = Normal l.
Proof.
  induction l as [|kx l IH]; [reflexivity|].
  destruct l as [|ky l]; [reflexivity|].
  cbn [map ascending_keys].
  destruct (Py.lt (fst ky) (fst kx)) as [[]|] eqn:L; try discriminate.
  intros Hs.
  change (sort_keyed (kx :: ky :: l))
    with (rbind (sort_keyed (ky :: l)) (insert_keyed kx)).
  rewrite (IH Hs). cbn [rbind insert_keyed]. now rewrite L.
Qed.

Lemma traverse_combine {A B} (f : A -> result B) l ys :
  traverse f l = Normal ys ->
  map fst (combine ys l) = ys /\ map snd (combine ys l) = l.
Proof.
  revert ys. induction l as [|x l IH]; intros ys; cbn [traverse].
  - intros [= <-]. now split.
  - destruct (f x) as [y|]; cbn [rbind]; [|discriminate].
    destruct (traverse f l) as [ys'|]; cbn [rbind]; [|discriminate].
    intros [= <-]. destruct (IH ys' eq_refl) as [Hf Hs].
    cbn [combine map fst snd]. now rewrite Hf, Hs.
Qed.

Lemma sorted_ascending overrides keys :
  traverse custom_model_data_of overrides = Normal keys ->
  ascending_keys keys = true ->
  sorted overrides custom_model_data_of = Normal overrides.
Proof.
  intros Ht Ha. destruct (traverse_combine _ _ _ Ht) as [Hf Hs].
  unfold sorted. rewrite Ht. cbn [rbind].
  rewrite sort_keyed_ascending by now rewrite Hf.
  cbn [rbind]. now rewrite Hs.
Qed.

End Integer_keys.

(** ** [check_vanilla_json] *)

Lemma scan_duplicates_adjacent p last l :
  scan_duplicates p last l = Normal tt <-> adjacent_equal (last :: l) = false.
Proof.
  revert last. induction l as [|number l IH]; intros last; [now split|].
  change (adjacent_equal (last :: number :: l))
    with (Py.eq number last || adjacent_equal (number :: l)).
  cbn [scan_duplicates]. destruct (Py.eq number last); cbn [orb].
  - split; discriminate.
  - apply IH.
Qed.

Lemma scan_duplicates_raise p last l e :
  scan_duplicates p last l = Raise e ->
  exists number, e = NoQuickFix (DuplicateCustomModelData number p).
Proof.
  revert last. induction l as [|number l IH]; intros last; cbn [scan_duplicates];
    [discriminate|].
  destruct (Py.eq number last); [|apply IH].
  intros [= <-]. now exists number.
Qed.

(** Up to the duplicate scan, for a document whose overrides all carry a
    discriminator. *)
Lemma check_vanilla_json_scan p d overrides custom_model_data w :
  Py.dict_get d "overrides" = Some (JList overrides) ->
  overrides <> [] ->
  traverse custom_model_data_of overrides = Normal custom_model_data ->
  check_vanilla_json p (JDict d) w
  = match scan_duplicates p (JInt (-1)) custom_model_data with
    | Normal _ => rearrange_and_fix p (JDict d) overrides w
    | Raise e => (Raise e, w)
    end.
Proof.
  intros Hd Hne Ht. unfold check_vanilla_json, bind at 1 2 3 4, lift.
  cbn [Py.contains Py.getitem]. rewrite (dict_get_has _ _ _ Hd), Hd. cbn [negb].
  destruct overrides as [|first rest]; [congruence|].
  rewrite Ht. cbn [traverse] in Ht. cbn [Py.first rbind].
  destruct (custom_model_data_of first); [|discriminate]. cbn [rbind except_KeyError].
  destruct (scan_duplicates p (JInt (-1)) custom_model_data); reflexivity.
Qed.

Lemma empty_overrides_is_IndexError p d w :
  Py.dict_get d "overrides" = Some (JList []) ->
  check_vanilla_json p (JDict d) w = (Raise IndexError, w).
Proof.
  intros Hd.
  unfold check_vanilla_json, bind, lift. cbn [Py.contains Py.getitem].
  rewrite (dict_get_has _ _ _ Hd), Hd. reflexivity.
Qed.

(** C10: an empty overrides list makes [check_vanilla_json] raise
    [IndexError]; the [except KeyError] clause lets it through, and
    [diagnose] takes it in its last clause, the one for any other
    exception, not in the one for [NoQuickFix]. *)
Theorem empty_overrides_IndexError p d w :
  Py.dict_get d "overrides" = Some (JList []) ->
  check_vanilla_json p (JDict d) w = (Raise IndexError, w)
  /\ except_KeyError (Raise IndexError : result (list JSON)) = Raise IndexError
  /\ diagnose_except IndexError = ExceptException
  /\ forall rel_parent n,
       is_vanilla_json p (JDict d) = Normal true ->
       check_document p rel_parent (JDict d) n w = (Raise IndexError, w).
Proof.
  intros Hd.
  pose proof (empty_overrides_is_IndexError p d w Hd) as Hc.
  split; [exact Hc|]. split; [reflexivity|]. split; [reflexivity|].
  intros rel_parent n Hv. unfold check_document, bind at 1, lift.
  rewrite Hv. unfold bind. now rewrite Hc.
Qed.

Lemma empty_overrides_IndexError_witness :
  check_vanilla_json sword_json (vanilla_document []) (mkWorld false false [] [])
  = (Raise IndexError, mkWorld false false [] []).
Proof.
  apply (empty_overrides_IndexError sword_json
           [("parent", JStr "item/generated");
            ("textures", JDict [("layer0", JStr "item/sword")]);
            ("overrides", JList [])]).
  reflexivity.
Defined.

Lemma lt_python a b e : Py.lt a b = Raise e -> python_error e.
Proof.
  revert b. induction a as [| x | n | s | l IH | d IH] using JSON_ind; intros b.
  1-4, 6: destruct b as [| [] | | | |]; try destruct x; cbn;
    first [discriminate | intros [= <-]; exact I].
  destruct b as [| y | | | m |]; cbn; try (intros [= <-]; exact I).
  revert m. induction IH as [|x l Hx _ IHl]; intros [|y m]; try discriminate.
  destruct (Py.eq x y); [apply IHl | apply Hx].
Qed.

Lemma insert_keyed_python kx l e : insert_keyed kx l = Raise e -> python_error e.
Proof.
  induction l as [|ky l IH]; cbn [insert_keyed]; [discriminate|].
  destruct (Py.lt (fst ky) (fst kx)) as [[]|e'] eqn:L; cbn [rbind].
  - destruct (insert_keyed kx l); cbn [rbind]; [discriminate|].
    intros [= <-]. now apply IH.
  - discriminate.
  - intros [= <-]. eapply lt_python, L.
Qed.

Lemma sort_keyed_python l e : sort_keyed l = Raise e -> python_error e.
Proof.
  induction l as [|kx l IH]; cbn [sort_keyed]; [discriminate|].
  destruct (sort_keyed l) as [s|e']; cbn [rbind].
  - apply insert_keyed_python.
  - intros [= <-]. now apply IH.
Qed.

Lemma custom_model_data_of_python override e :
  custom_model_data_of override = Raise e -> python_error e.
Proof.
  unfold custom_model_data_of.
  destruct (Py.getitem override "predicate") eqn:G; cbn [rbind].
  - apply getitem_python.
  - intros [= <-]. eapply getitem_python, G.
Qed.

Lemma sorted_python l e :
  sorted l custom_model_data_of = Raise e -> python_error e.
Proof.
  unfold sorted.
  destruct (traverse custom_model_data_of l) as [keys|e'] eqn:K; cbn [rbind].
  - destruct (sort_keyed (combine keys l)) eqn:S; cbn [rbind]; [discriminate|].
    intros [= <-]. eapply sort_keyed_python, S.
  - intros [= <-]. eapply traverse_python, K. apply custom_model_data_of_python.
Qed.

Lemma raises_python_rearrange p json overrides :
  raises_python (rearrange_and_fix p json overrides).
Proof.
  unfold rearrange_and_fix.
  apply raises_python_bind; [apply raises_python_lift, sorted_python|].
  intros sorted_overrides.
  apply raises_python_bind.
  { destruct (negb _); [apply raises_python_ask | apply raises_python_ret]. }
  intros rearrange.
  apply raises_python_bind.
  { destruct rearrange; [|apply raises_python_ret].
    apply raises_python_bind; [apply raises_python_lift, setitem_python|].
    intros json'.
    apply raises_python_bind; [apply raises_python_dump|].
    intros; apply raises_python_ret. }
  intros overrides'.
  apply raises_python_bind; [apply raises_python_fix_models|].
  intros fixed. apply raises_python_lift. intros e.
  apply traverse_python. intros x e'. apply getitem_python.
Qed.

(** The duplicate error is raised exactly when the first discriminator
    equals -1 or two neighbours are equal. *)
Lemma duplicate_error_iff_sentinel p d overrides custom_model_data w :
  Py.dict_get d "overrides" = Some (JList overrides) ->
  overrides <> [] ->
  traverse custom_model_data_of overrides = Normal custom_model_data ->
  (exists number,
      fst (check_vanilla_json p (JDict d) w)
      = Raise (NoQuickFix (DuplicateCustomModelData number p)))
  <-> adjacent_equal (JInt (-1) :: custom_model_data) = true.
Proof.
  intros Hd Hne Ht. rewrite (check_vanilla_json_scan _ _ _ _ _ Hd Hne Ht).
  destruct (scan_duplicates p (JInt (-1)) custom_model_data) as [[]|e] eqn:S.
  - apply scan_duplicates_adjacent in S. rewrite S. split; [|discriminate].
    intros [number H]. exfalso.
    apply (raises_python_rearrange p (JDict d) overrides w _ H).
  - split.
    + intros _. destruct (adjacent_equal (JInt (-1) :: custom_model_data)) eqn:E;
        [reflexivity|]. apply (scan_duplicates_adjacent p) in E. congruence.
    + intros _. destruct (scan_duplicates_raise _ _ _ _ S) as [number ->].
      now exists number.
Qed.

Example duplicate_1_2_2_3 w :
  check_vanilla_json sword_json
    (vanilla_document [override_entry (JInt 1) "a"; override_entry (JInt 2) "b";
                       override_entry (JInt 2) "c"; override_entry (JInt 3) "d"]) w
  = (Raise (NoQuickFix (DuplicateCustomModelData (JInt 2) sword_json)), w).
Proof. reflexivity. Qed.

Example no_duplicate_2_1_2 :
  adjacent_equal [JInt 2; JInt 1; JInt 2] = false
  /\ fst (check_vanilla_json sword_json
            (vanilla_document [override_entry (JInt 2) "a"; override_entry (JInt 1) "b";
                               override_entry (JInt 2) "c"])
            (mkWorld false false ["no"] []))
     = Normal [JStr "a"; JStr "b"; JStr "c"].
Proof. split; reflexivity. Qed.

(** C1: a document with the single discriminator -1 has no two
    consecutive equal discriminators, yet [check_vanilla_json] raises the
    duplicate error for it: the scan starts from -1 as the previous
    value. *)
Theorem duplicate_reported_for_lone_override p w :
  adjacent_equal [JInt (-1)] = false
  /\ check_vanilla_json p
       (vanilla_document [override_entry (JInt (-1)) "item/sword_1"]) w
     = (Raise (NoQuickFix (DuplicateCustomModelData (JInt (-1)) p)), w).
Proof. split; reflexivity. Qed.

Lemma rearrange_and_fix_sorted p json overrides w :
  sorted overrides custom_model_data_of = Normal overrides ->
  rearrange_and_fix p json overrides w
  = (fixed <- fix_models overrides;;
     lift (traverse (fun override => Py.getitem override "model") fixed)) w.
Proof.
  intros H. unfold rearrange_and_fix, bind at 1 2 3, lift at 1.
  rewrite H, py_eq_refl. reflexivity.
Qed.

(** When the discriminators of an override list are already in
    ascending order, [sorted] returns the list itself and
    [check_vanilla_json] logs nothing but the prompts of [fix_name].  On
    integer discriminators [sorted] returns a permutation in ascending
    order that keeps entries with equal discriminators in their original
    order, and sorting its result again changes nothing. *)
Lemma sorted_stable_on_integers overrides keys :
  traverse custom_model_data_of overrides = Normal keys ->
  (ascending_keys keys = true ->
   sorted overrides custom_model_data_of = Normal overrides
   /\ forall p d w,
        Py.dict_get d "overrides" = Some (JList overrides) ->
        exists events,
          log (snd (check_vanilla_json p (JDict d) w)) = log w ++ events
          /\ Forall is_name_prompt events)
  /\ (forall zs,
         keys = map JInt zs ->
         ascending_keys keys = ascending zs
         /\ exists sorted_overrides zs',
              sorted overrides custom_model_data_of = Normal sorted_overrides
              /\ traverse custom_model_data_of sorted_overrides
                 = Normal (map JInt zs')
              /\ ascending zs' = true
              /\ Permutation overrides sorted_overrides
              /\ (forall z,
                     List.filter (with_key z) (combine zs' sorted_overrides)
                     = List.filter (with_key z) (combine zs overrides))
              /\ sorted sorted_overrides custom_model_data_of
                 = Normal sorted_overrides).
Proof.
  intros Ht. split.
  - intros Ha.
    pose proof (sorted_ascending _ _ Ht Ha) as Hid.
    split; [exact Hid|]. intros p d w Hd.
    destruct overrides as [|first rest] eqn:Ho.
    + rewrite (empty_overrides_is_IndexError p d w Hd).
      exists []. split; [now rewrite app_nil_r | constructor].
    + rewrite (check_vanilla_json_scan p d _ _ w Hd ltac:(discriminate) Ht).
      destruct (scan_duplicates p (JInt (-1)) keys).
      * rewrite rearrange_and_fix_sorted by exact Hid.
        apply appends_bind; [apply appends_fix_models|].
        intros fixed. apply appends_lift.
      * exists []. split; [now rewrite app_nil_r | constructor].
  - intros zs ->. split; [apply ascending_keys_int|].
    destruct (traverse_keyed _ _ Ht) as (Hk & Hf & Hs).
    pose proof (sorted_int _ _ Ht) as Hsorted.
    set (pairs := combine zs overrides) in *.
    assert (Hk' : Forall keyed (sort_int pairs)).
    { rewrite Forall_forall in *. intros kx Hin. apply Hk.
      apply list_elem_of_In. apply list_elem_of_In in Hin.
      eapply Permutation_in; [symmetry; apply sort_int_perm | exact Hin]. }
    pose proof (keyed_traverse _ Hk') as Ht'.
    assert (Hasc : ascending (map fst (sort_int pairs)) = true)
      by apply ascending_sorted, sort_int_sorted.
    exists (map snd (sort_int pairs)), (map fst (sort_int pairs)).
    split; [exact Hsorted|]. split; [exact Ht'|]. split; [exact Hasc|].
    split; [|split].
    + rewrite <- Hs at 1. apply Permutation_map, sort_int_perm.
    + intros z. rewrite combine_fst_snd. apply sort_int_stable.
    + apply (sorted_ascending _ _ Ht'). now rewrite ascending_keys_int.
Qed.

(** ** [check_pack_mcmeta] *)

(** Declining the fix for a missing ["pack_format"] is harmless: the
    function returns, and the document it writes back is the one it
    read. *)
Lemma declined_pack_format path d pack w :
  Py.dict_get d "pack" = Some (JDict pack) ->
  Py.dict_has pack "pack_format" = false ->
  Py.dict_has pack "description" = true ->
  next_answer w = Some false ->
  exists w',
    check_pack_mcmeta path (Some (JDict d)) w = (Normal tt, w')
    /\ log w' = log w ++ [Asked PackFormatMissing; Dumped (pack_mcmeta path) (JDict d)].
Proof.
  intros Hd Hf Hdesc Ha.
  destruct (ask_next PackFormatMissing w false Ha) as (w1 & E & _ & L).
  unfold check_pack_mcmeta, check_pack_loaded, check_pack_fields, bind, lift, ret.
  cbn [Py.contains Py.getitem]. rewrite (dict_get_has _ _ _ Hd), Hd.
  cbn [Py.contains negb]. rewrite Hf. cbn [negb]. rewrite E.
  cbn [Py.getitem]. rewrite Hd. cbn [Py.contains]. rewrite Hdesc. cbn [negb].
  eexists. split; [reflexivity|]. cbn [log]. rewrite L, <- app_assoc. reflexivity.
Qed.

Example accepted_pack_format :
  check_pack_mcmeta "pack"
    (Some (JDict [("pack", JDict [("description", JStr "mine")])]))
    (mkWorld false false ["yes"] [])
  = (Normal tt,
     mkWorld false true []
       [Asked PackFormatMissing;
        Dumped (pack_mcmeta "pack")
          (JDict [("pack", JDict [("description", JStr "mine");
                                  ("pack_format", JInt 8)])])]).
Proof. reflexivity. Qed.

(** C8: declining the reset offered for an unreadable [pack.mcmeta], or
    the one offered for a missing ["pack"] key, does not let the function
    complete: it goes on to use what the reset would have provided and
    raises [UnboundLocalError], respectively [KeyError], which [diagnose]
    reports as a failure of the program before exiting. *)
Theorem declined_reset_raises path d w :
  next_answer w = Some false ->
  Py.dict_has d "pack" = false ->
  fst (check_pack_mcmeta path None w) = Raise UnboundLocalError
  /\ fst (check_pack_mcmeta path (Some (JDict d)) w) = Raise (KeyError "pack")
  /\ diagnose_except UnboundLocalError = ExceptException
  /\ diagnose_except (KeyError "pack") = ExceptException.
Proof.
  intros Ha Hd. repeat split.
  - destruct (ask_next PackMcmetaJsonError w false Ha) as (w1 & E & _).
    unfold check_pack_mcmeta, bind. now rewrite E.
  - destruct (ask_next PackKeywordMissing w false Ha) as (w1 & E & _).
    unfold check_pack_mcmeta, check_pack_loaded, bind at 1 2, lift at 1.
    cbn [Py.contains]. rewrite Hd. cbn [negb]. rewrite E.
    unfold check_pack_fields, bind, lift. cbn [Py.getitem].
    rewrite dict_has_get in Hd. destruct (Py.dict_get d "pack"); [discriminate|].
    reflexivity.
Qed.

Lemma declined_reset_raises_witness :
  fst (check_pack_mcmeta "pack" None (mkWorld false false ["no"] []))
  = Raise UnboundLocalError
  /\ fst (check_pack_mcmeta "pack" (Some (JDict [])) (mkWorld false false ["no"] []))
     = Raise (KeyError "pack").
Proof.
  destruct (declined_reset_raises "pack" [] (mkWorld false false ["no"] [])
              eq_refl eq_refl) as (H1 & H2 & _).
  split; [exact H1 | exact H2].
Defined.

(** ** [check_custom_json] *)

Lemma guard_clean s :
  PyStr.islower s && negb (PyStr.has_space s) = true -> needs_fix s = false.
Proof.
  unfold PyStr.islower, needs_fix.
  destruct (PyStr.any PyStr.isupper_char s), (PyStr.has_space s),
    (PyStr.any PyStr.iscased_char s); cbn; congruence.
Qed.

(** With every fix confirmed, [fix_name] returns the normalized form. *)
Lemma fix_name_auto s w :
  AUTO_FIX w = true ->
  exists b w', fix_name s w = (Normal (b, normalized s), w') /\ AUTO_FIX w' = true.
Proof.
  intros Ha. unfold fix_name.
  destruct (PyStr.islower s && negb (PyStr.has_space s)) eqn:G.
  - exists false, w. rewrite (normalized_id s (guard_clean s G)). auto.
  - assert (Hn : next_answer w = Some true) by (unfold next_answer; now rewrite Ha).
    destruct (ask_next (InvalidFileName s) w true Hn) as (w1 & E & A1 & _).
    exists true, w1. unfold bind. rewrite E. split; [reflexivity | congruence].
Qed.

(** In any case it returns its argument or the normalized form of it. *)
Lemma fix_name_either s w b s' w' :
  fix_name s w = (Normal (b, s'), w') -> s' = s \/ s' = normalized s.
Proof.
  unfold fix_name. destruct (_ && _).
  - intros [= _ <- _]. now left.
  - unfold bind. destruct (ask _ w) as [[[]|e] w1]; cbn.
    + intros [= _ <- _]. now right.
    + intros [= _ <- _]. now left.
    + discriminate.
Qed.

Lemma fix_textures_auto items strs w :
  map snd items = map JStr strs ->
  AUTO_FIX w = true ->
  exists fixed w',
    fix_textures items w = (Normal fixed, w')
    /\ AUTO_FIX w' = true
    /\ map snd fixed = map (fun s => JStr (normalized s)) strs.
Proof.
  revert strs w. induction items as [|[key texture] items IH]; intros strs w Hs Ha.
  - destruct strs; [|discriminate]. exists [], w. auto.
  - destruct strs as [|s strs]; [discriminate|]. cbn [map snd] in Hs.
    injection Hs as -> Hs.
    destruct (fix_name_auto s w Ha) as (b & w1 & E1 & A1).
    destruct (IH strs w1 Hs A1) as (fixed & w2 & E2 & A2 & V2).
    exists ((key, JStr (normalized s)) :: fixed), w2.
    cbn [fix_textures fix_name_value]. unfold bind at 1 2. rewrite E1.
    cbn [ret fst snd]. unfold bind. rewrite E2. cbn [ret].
    repeat split; [exact A2|]. cbn [map snd]. now rewrite V2.
Qed.

Lemma fix_textures_values items strs fixed w w' :
  map snd items = map JStr strs ->
  fix_textures items w = (Normal fixed, w') ->
  Forall2 fixed_from strs (map snd fixed).
Proof.
  revert strs fixed w w'. induction items as [|[key texture] items IH];
    intros strs fixed w w' Hs.
  - destruct strs; [|discriminate]. intros [= <- _]. constructor.
  - destruct strs as [|s strs]; [discriminate|]. cbn [map snd] in Hs.
    injection Hs as -> Hs.
    cbn [fix_textures fix_name_value]. unfold bind at 1 2.
    destruct (fix_name s w) as [[[b s']|e] w1] eqn:E1; [|discriminate].
    cbn [ret fst snd]. unfold bind.
    destruct (fix_textures items w1) as [[rest|e] w2] eqn:E2; [|discriminate].
    cbn [ret]. intros [= <- _]. cbn [map snd]. constructor.
    + destruct (fix_name_either _ _ _ _ _ E1) as [-> | ->]; [now left | now right].
    + eapply IH; eassumption.
Qed.

(** A textures map that equals its fixed version holds normalized
    values already. *)
Lemma unchanged_textures_normalized items fixed strs strs' :
  Py.eq (JDict items) (JDict fixed) = true ->
  map snd items = map JStr strs ->
  map snd fixed = map (fun s => JStr (normalized s)) strs' ->
  map JStr strs = map (fun s => JStr (normalized s)) strs.
Proof.
  intros He Hs Hf.
  assert (Hall : Forall (fun v => exists s', v = JStr (normalized s')) (map snd items)).
  { rewrite eq_JDict in He. apply andb_true_iff in He as [_ He].
    rewrite forallb_forall in He. apply Forall_forall. intros v Hv.
    apply list_elem_of_In, in_map_iff in Hv as ([k v'] & <- & Hin).
    specialize (He _ Hin). unfold has_item in He.
    apply existsb_exists in He as ([k' u] & Hu & Hm).
    apply andb_true_iff in Hm as [_ Hm]. cbn [fst snd] in *.
    assert (Hu' : In u (map snd fixed)) by (apply in_map_iff; now exists (k', u)).
    rewrite Hf in Hu'. apply in_map_iff in Hu' as (s' & <- & _).
    exists s'. now apply eq_JStr. }
  rewrite Hs in Hall. clear -Hall.
  induction strs as [|s strs IH]; [reflexivity|].
  cbn [map] in *. apply Forall_cons in Hall as [(s' & [= ->]) Hall].
  rewrite normalized_idem. f_equal. now apply IH.
Qed.

(** For a Custom document that passes the preconditions,
    [check_custom_json] returns the values of the textures map, not its
    keys; with [AUTO_FIX] set these are the normalized forms, which
    contain no uppercase character and no space, and otherwise each value
    is returned either as it stands in the document or normalized. *)
Lemma check_custom_json_fixed_values p d items strs :
  Py.dict_get d "textures" = Some (JDict items) ->
  Py.dict_has d "elements" = true ->
  PyStr.contains missing_marker (Dumps.dumps (JDict d)) = false ->
  map snd items = map JStr strs ->
  (forall w, AUTO_FIX w = true ->
             fst (check_custom_json p (JDict d) w)
             = Normal (map (fun s => JStr (normalized s)) strs))
  /\ Forall (fun s => needs_fix (normalized s) = false) strs
  /\ (forall w textures,
         fst (check_custom_json p (JDict d) w) = Normal textures ->
         Forall2 fixed_from strs textures).
Proof.
  intros Hd He Hm Hs.
  assert (Hunfold : forall w,
             check_custom_json p (JDict d) w
             = (fixed_textures <- fix_textures items;;
                replace <-
                  (if negb (Py.eq (JDict items) (JDict fixed_textures))
                   then ask (InvalidTextures p) else ret false);;
                if replace : bool then
                  json' <- lift (Py.setitem (JDict d) "textures" (JDict fixed_textures));;
                  dump p json';;
                  ret (map snd fixed_textures)
                else ret (map snd items)) w).
  { intros w. unfold check_custom_json, bind at 1 2, lift at 1 2.
    cbn [Py.getitem Py.contains]. rewrite Hd, He. cbn [negb]. now rewrite Hm. }
  split; [|split].
  - intros w Ha. rewrite Hunfold.
    destruct (fix_textures_auto items strs w Hs Ha) as (fixed & w1 & E & A1 & V).
    unfold bind at 1. rewrite E.
    destruct (Py.eq (JDict items) (JDict fixed)) eqn:Q; cbn [negb].
    + unfold bind, ret. cbn [fst]. rewrite Hs. f_equal.
      eapply unchanged_textures_normalized; eassumption.
    + assert (Hn : next_answer w1 = Some true) by (unfold next_answer; now rewrite A1).
      destruct (ask_next (InvalidTextures p) w1 true Hn) as (w2 & E2 & _).
      unfold bind at 1. rewrite E2. cbn. now rewrite V.
  - apply Forall_forall. intros s _. apply normalized_clean.
  - intros w textures. rewrite Hunfold. unfold bind at 1.
    destruct (fix_textures items w) as [[fixed|e] w1] eqn:E; [|discriminate].
    pose proof (fix_textures_values _ _ _ _ _ Hs E) as Hv.
    unfold bind at 1.
    destruct ((if negb (Py.eq (JDict items) (JDict fixed))
               then ask (InvalidTextures p) else ret false) w1)
      as [[[]|e] w2]; [| |discriminate].
    + cbn. intros [= <-]. exact Hv.
    + cbn. intros [= <-]. rewrite Hs.
      clear. induction strs; constructor; [now left | assumption].
Qed.

(** C7 (as stated) fails: when the fix is declined the value comes back
    as it stands in the document, with its uppercase characters and its
    space. *)
Lemma check_custom_json_declined_counterexample :
  fst (check_custom_json sword_json
         (JDict [("textures", JDict [("0", JStr "item/My Sword")]);
                 ("elements", JList [])])
         (mkWorld false false ["no"] []))
  = Normal [JStr "item/My Sword"]
  /\ needs_fix "item/My Sword" = true.
Proof. split; reflexivity. Qed.

(** ** What every check keeps *)

Section Accounted.

Context {A B : Type}.
Implicit Types (m : M A) (k : A -> M B).

Lemma accounted_silent m : (forall w, snd (m w) = w) -> accounted m.
Proof.
  intros H w. rewrite H. exists []. rewrite app_nil_r, orb_false_r. auto.
Qed.

Lemma accounted_ret (a : A) : accounted (ret a).
Proof. now apply accounted_silent. Qed.

Lemma accounted_raise e : accounted (raise e : M A).
Proof. now apply accounted_silent. Qed.

Lemma accounted_lift (r : result A) : accounted (lift r).
Proof. now apply accounted_silent. Qed.

Lemma accounted_bind m k :
  accounted m -> (forall a, accounted (k a)) -> accounted (bind m k).
Proof.
  intros Hm Hk w. unfold bind.
  destruct (Hm w) as (ev1 & L1 & A1 & F1 & S1).
  destruct (m w) as [[a|e] w1]; cbn [snd] in *.
  - destruct (Hk a w1) as (ev2 & L2 & A2 & F2 & S2).
    exists (ev1 ++ ev2). repeat split.
    + now rewrite L2, L1, app_assoc.
    + congruence.
    + now rewrite F2, F1, existsb_app, orb_assoc.
    + intros Ha. rewrite S2, S1; congruence.
  - exists ev1. auto.
Qed.

End Accounted.

Lemma accounted_ask q : accounted (ask q).
Proof.
  intros w. exists [Asked q]. unfold ask. cbn [AUTO_FIX stdin log is_error_exist].
  destruct (AUTO_FIX w) eqn:Ha.
  - cbn. rewrite orb_true_r. auto.
  - destruct (read_answer (stdin w)) as [[a rest]|]; cbn; rewrite orb_true_r;
      repeat split; auto; discriminate.
Qed.

Lemma accounted_dump p doc : accounted (dump p doc).
Proof.
  intros w. exists [Dumped p doc]. cbn. rewrite orb_false_r. auto.
Qed.

Ltac account :=
  repeat first
    [ apply accounted_ret | apply accounted_raise | apply accounted_lift
    | apply accounted_ask | apply accounted_dump
    | apply accounted_bind; [|intros ?]
    | match goal with
      | |- accounted (if ?b then _ else _) => destruct b
      | |- accounted (match ?x with _ => _ end) => destruct x
      end ].

Lemma accounted_fix_name s : accounted (fix_name s).
Proof. unfold fix_name. account. Qed.

Lemma accounted_fix_name_value v : accounted (fix_name_value v).
Proof. destruct v; cbn [fix_name_value]; account; apply accounted_fix_name. Qed.

Lemma accounted_fix_models overrides : accounted (fix_models overrides).
Proof.
  induction overrides as [|override rest IH]; cbn [fix_models]; account;
    first [apply accounted_fix_name_value | exact IH].
Qed.

Lemma accounted_fix_textures items : accounted (fix_textures items).
Proof.
  induction items as [|[key texture] rest IH]; cbn [fix_textures]; account;
    first [apply accounted_fix_name_value | exact IH].
Qed.

Lemma accounted_check_vanilla_json p json : accounted (check_vanilla_json p json).
Proof.
  unfold check_vanilla_json, rearrange_and_fix. account.
  all: apply accounted_fix_models.
Qed.

Lemma accounted_check_custom_json p json : accounted (check_custom_json p json).
Proof.
  unfold check_custom_json. account. all: apply accounted_fix_textures.
Qed.

Lemma accounted_check_document p rel_parent json n :
  accounted (check_document p rel_parent json n).
Proof.
  unfold check_document.
  apply accounted_bind; [apply accounted_lift|]. intros [].
  - apply accounted_bind; [apply accounted_check_vanilla_json|].
    intros models. apply accounted_ret.
  - apply accounted_bind; [apply accounted_check_custom_json|].
    intros textures. apply accounted_ret.
Qed.

Lemma accounted_check_pack_mcmeta path content :
  accounted (check_pack_mcmeta path content).
Proof.
  unfold check_pack_mcmeta, check_pack_loaded, check_pack_fields.
  destruct content as [json|]; account.
Qed.

(** X1: [is_error_exist] after a check is its value before, or true as
    soon as the check asked a question: the flag [_diagnose] reads for its
    closing message reports exactly whether something was asked, and a
    rewrite alone never sets it. *)
Theorem flag_set_exactly_by_questions path content p rel_parent json n w :
  (exists events,
      log (snd (check_pack_mcmeta path content w)) = log w ++ events
      /\ is_error_exist (snd (check_pack_mcmeta path content w))
         = is_error_exist w || existsb is_asked events)
  /\ (exists events,
         log (snd (check_document p rel_parent json n w)) = log w ++ events
         /\ is_error_exist (snd (check_document p rel_parent json n w))
            = is_error_exist w || existsb is_asked events).
Proof.
  split.
  - destruct (accounted_check_pack_mcmeta path content w) as (ev & L & _ & F & _).
    now exists ev.
  - destruct (accounted_check_document p rel_parent json n w) as (ev & L & _ & F & _).
    now exists ev.
Qed.

(** X2: no check changes [AUTO_FIX], and once it is set no check reads a
    line of input, whatever the document holds and however the check
    ends. *)
Theorem auto_fix_reads_no_input path content p rel_parent json n w :
  AUTO_FIX (snd (check_pack_mcmeta path content w)) = AUTO_FIX w
  /\ AUTO_FIX (snd (check_document p rel_parent json n w)) = AUTO_FIX w
  /\ (AUTO_FIX w = true ->
      stdin (snd (check_pack_mcmeta path content w)) = stdin w
      /\ stdin (snd (check_document p rel_parent json n w)) = stdin w).
Proof.
  destruct (accounted_check_pack_mcmeta path content w) as (ev1 & _ & A1 & _ & S1).
  destruct (accounted_check_document p rel_parent json n w) as (ev2 & _ & A2 & _ & S2).
  auto.
Qed.

Lemma auto_fix_reads_no_input_witness :
  stdin (snd (check_pack_mcmeta "pack" None (mkWorld true false ["no"] [])))
  = ["no"].
Proof.
  apply (auto_fix_reads_no_input "pack" None sword_json "item" JNull no_names
           (mkWorld true false ["no"] [])).
  reflexivity.
Defined.

(** ** Dict updates *)

Lemma dict_get_set_eq d key v : Py.dict_get (Py.dict_set d key v) key = Some v.
Proof.
  induction d as [|[k w] d IH]; cbn [Py.dict_set Py.dict_get].
  - now rewrite String.eqb_refl.
  - destruct (String.eqb key k) eqn:E; cbn [Py.dict_get]; now rewrite E.
Qed.

Lemma dict_get_set_ne d key key' v :
  key <> key' -> Py.dict_get (Py.dict_set d key v) key' = Py.dict_get d key'.
Proof.
  intros Hne. induction d as [|[k w] d IH]; cbn [Py.dict_set Py.dict_get].
  - apply not_eq_sym, String.eqb_neq in Hne. now rewrite Hne.
  - destruct (String.eqb key k) eqn:E; cbn [Py.dict_get].
    + apply String.eqb_eq in E. subst k.
      apply not_eq_sym, String.eqb_neq in Hne. now rewrite Hne.
    + now rewrite IH.
Qed.

Lemma dict_set_get_id d key v : Py.dict_get d key = Some v -> Py.dict_set d key v = d.
Proof.
  induction d as [|[k w] d IH]; cbn [Py.dict_set Py.dict_get]; [discriminate|].
  destruct (String.eqb key k); [now intros [= ->] | intros H; now rewrite IH].
Qed.

Lemma dict_set_set d key v v' :
  Py.dict_set (Py.dict_set d key v) key v' = Py.dict_set d key v'.
Proof.
  induction d as [|[k w] d IH]; cbn [Py.dict_set].
  - now rewrite String.eqb_refl.
  - destruct (String.eqb key k) eqn:E; cbn [Py.dict_set]; rewrite E;
      [reflexivity | now rewrite IH].
Qed.

Lemma dict_has_set_ne d key key' v :
  key <> key' -> Py.dict_has (Py.dict_set d key v) key' = Py.dict_has d key'.
Proof. intros Hne. now rewrite !dict_has_get, dict_get_set_ne. Qed.

Lemma dict_has_set_eq d key v : Py.dict_has (Py.dict_set d key v) key = true.
Proof. now rewrite dict_has_get, dict_get_set_eq. Qed.

(** ** [check_pack_mcmeta], continued *)

Lemma ask_auto q w :
  AUTO_FIX w = true ->
  ask q w = (Normal true, mkWorld true true (stdin w) (log w ++ [Asked q])).
Proof. intros Ha. unfold ask. cbn [AUTO_FIX stdin log]. now rewrite Ha. Qed.

Lemma check_pack_complete path doc w :
  complete_pack doc ->
  check_pack_mcmeta path (Some doc) w
  = (Normal tt, logged w [Dumped (pack_mcmeta path) doc]).
Proof.
  intros (d & pack & n & -> & Hd & Hf & Hdesc).
  unfold check_pack_mcmeta, check_pack_loaded, check_pack_fields, bind, lift, ret.
  cbn [Py.contains Py.getitem]. rewrite (dict_get_has _ _ _ Hd), Hd.
  cbn [Py.contains negb]. rewrite (dict_get_has _ _ _ Hf). cbn [negb Py.getitem].
  rewrite Hf. cbn [Py.getitem]. rewrite Hd. cbn [Py.contains].
  rewrite Hdesc. reflexivity.
Qed.

Lemma repaired_pack_complete d pack :
  complete_pack (JDict (Py.dict_set d "pack" (JDict (repaired_pack pack)))).
Proof.
  assert (Hf : exists n, Py.dict_get
                 (match Py.dict_get pack "pack_format" with
                  | Some (JInt _) => pack
                  | _ => Py.dict_set pack "pack_format" DEFAULTS_pack_format
                  end) "pack_format" = Some (JInt n)).
  { destruct (Py.dict_get pack "pack_format") as [[]|] eqn:E;
      first [ eexists; exact E | exists 8; apply dict_get_set_eq ]. }
  destruct Hf as [n Hf].
  exists (Py.dict_set d "pack" (JDict (repaired_pack pack))), (repaired_pack pack), n.
  split; [reflexivity|]. split; [apply dict_get_set_eq|].
  unfold repaired_pack. cbv zeta.
  destruct (Py.dict_has _ "description") eqn:D.
  - now split.
  - split; [|apply dict_has_set_eq]. now rewrite dict_get_set_ne.
Qed.

Lemma check_pack_auto path d pack w :
  AUTO_FIX w = true ->
  Py.dict_get d "pack" = Some (JDict pack) ->
  exists w',
    check_pack_mcmeta path (Some (JDict d)) w = (Normal tt, w')
    /\ log w'
       = log w ++ pack_questions pack
         ++ [Dumped (pack_mcmeta path)
               (JDict (Py.dict_set d "pack" (JDict (repaired_pack pack))))].
Proof.
  intros Ha Hd.
  unfold check_pack_mcmeta, check_pack_loaded, check_pack_fields, bind, lift, ret.
  cbn [Py.contains Py.getitem]. rewrite (dict_get_has _ _ _ Hd), Hd.
  cbn [Py.contains negb]. rewrite (dict_has_get pack "pack_format").
  unfold repaired_pack, pack_questions, set_pack_field. cbv zeta.
  destruct (Py.dict_get pack "pack_format") as [v|] eqn:F; cbn [negb Py.getitem].
  - rewrite F.
    destruct v; try rewrite (ask_auto _ _ Ha);
      cbn [rbind Py.getitem Py.setitem Py.contains]; rewrite ?Hd;
      cbn [rbind Py.getitem Py.setitem Py.contains]; rewrite ?dict_get_set_eq;
      cbn [Py.contains]; rewrite ?dict_has_set_ne by discriminate;
      (destruct (Py.dict_has _ "description") eqn:D; cbn [negb];
       [| rewrite ask_auto by (first [reflexivity | exact Ha]);
          cbn [rbind Py.getitem Py.setitem]; rewrite ?Hd, ?dict_get_set_eq;
          cbn [rbind Py.setitem]; rewrite ?dict_set_set ]);
      eexists; (split; [reflexivity|]); cbn [log dump emit];
      rewrite <- ?app_assoc; cbn [app];
      rewrite ?(dict_set_get_id _ _ _ Hd); reflexivity.
  - rewrite (ask_auto _ _ Ha).
    cbn [rbind Py.getitem Py.setitem Py.contains]. rewrite Hd.
    cbn [rbind Py.getitem Py.setitem Py.contains]. rewrite dict_get_set_eq.
    cbn [Py.contains]. rewrite ?dict_has_set_ne by discriminate.
    destruct (Py.dict_has _ "description") eqn:D; cbn [negb].
    + eexists. split; [reflexivity|]. cbn [log dump emit].
      now rewrite <- app_assoc.
    + rewrite ask_auto by reflexivity.
      cbn [rbind Py.getitem Py.setitem]. rewrite ?dict_get_set_eq.
      cbn [rbind Py.setitem]. rewrite dict_set_set.
      eexists. split; [reflexivity|]. cbn [log dump emit].
      now rewrite <- !app_assoc.
Qed.

Lemma check_pack_reset path content w :
  next_answer w = Some true ->
  match content with
  | None => True
  | Some (JDict d) => Py.dict_has d "pack" = false
  | Some _ => False
  end ->
  exists w',
    check_pack_mcmeta path content w = (Normal tt, w')
    /\ log w'
       = log w ++ [Asked (match content with
                          | None => PackMcmetaJsonError
                          | Some _ => PackKeywordMissing
                          end);
                   Dumped (pack_mcmeta path) DEFAULT_JSON].
Proof.
  intros Hn Hc. destruct content as [[]|]; try contradiction.
  - destruct (ask_next PackKeywordMissing w true Hn) as (w1 & E & _ & L).
    unfold check_pack_mcmeta, check_pack_loaded, bind, lift.
    cbn [Py.contains]. rewrite Hc. cbn [negb]. rewrite E.
    eexists. split; [reflexivity|]. cbn [log dump emit]. rewrite L.
    now rewrite <- app_assoc.
  - destruct (ask_next PackMcmetaJsonError w true Hn) as (w1 & E & _ & L).
    unfold check_pack_mcmeta, bind. rewrite E.
    eexists. split; [reflexivity|]. cbn [log dump emit]. rewrite L.
    now rewrite <- app_assoc.
Qed.

Lemma DEFAULT_JSON_complete : complete_pack DEFAULT_JSON.
Proof.
  eexists _, _, 8. split; [reflexivity|]. repeat split.
Qed.

(** X3: a [pack.mcmeta] whose ["pack"] object holds an integer
    ["pack_format"] and a ["description"] is accepted without a question,
    and is written back all the same: the file is rewritten on every
    run, with the document as it was read. *)
Theorem complete_pack_rewritten_unasked path d pack n w :
  Py.dict_get d "pack" = Some (JDict pack) ->
  Py.dict_get pack "pack_format" = Some (JInt n) ->
  Py.dict_has pack "description" = true ->
  check_pack_mcmeta path (Some (JDict d)) w
  = (Normal tt, logged w [Dumped (pack_mcmeta path) (JDict d)]).
Proof.
  intros Hd Hf Hdesc. apply check_pack_complete. now exists d, pack, n.
Qed.

Lemma complete_pack_rewritten_unasked_witness :
  check_pack_mcmeta "pack" (Some DEFAULT_JSON) (mkWorld false false [] [])
  = (Normal tt,
     logged (mkWorld false false [] []) [Dumped (pack_mcmeta "pack") DEFAULT_JSON]).
Proof.
  apply (complete_pack_rewritten_unasked "pack"
           [("pack", JDict [("pack_format", DEFAULTS_pack_format);
                            ("description", DEFAULTS_description)])]
           [("pack_format", DEFAULTS_pack_format);
            ("description", DEFAULTS_description)] 8);
    reflexivity.
Defined.

(** X4: with every fix accepted, a [pack.mcmeta] whose ["pack"] entry is an
    object is written back with that object repaired and every other
    entry as it was: ["pack_format"] becomes 8 unless it already holds an
    [int] (a boolean or a string is replaced), ["description"] is added
    only when absent; one question is logged per repair. *)
Theorem auto_fix_repairs_pack path d pack w :
  AUTO_FIX w = true ->
  Py.dict_get d "pack" = Some (JDict pack) ->
  exists w',
    check_pack_mcmeta path (Some (JDict d)) w = (Normal tt, w')
    /\ log w'
       = log w ++ pack_questions pack
         ++ [Dumped (pack_mcmeta path)
               (JDict (Py.dict_set d "pack" (JDict (repaired_pack pack))))].
Proof. apply check_pack_auto. Qed.

Lemma auto_fix_repairs_pack_witness :
  exists w',
    check_pack_mcmeta "pack"
      (Some (JDict [("pack", JDict [("pack_format", JBool true)]); ("x", JNull)]))
      (mkWorld true false [] [])
    = (Normal tt, w')
    /\ log w'
       = [Asked PackFormatNotWhole; Asked DescriptionMissing;
          Dumped (pack_mcmeta "pack")
            (JDict [("pack", JDict [("pack_format", JInt 8);
                                    ("description", JStr "Fixed by WingedSeal-Bot")]);
                    ("x", JNull)])].
Proof.
  apply (auto_fix_repairs_pack "pack"
           [("pack", JDict [("pack_format", JBool true)]); ("x", JNull)]
           [("pack_format", JBool true)] (mkWorld true false [] []));
    reflexivity.
Defined.

(** X5: an accepted reset, offered for an unreadable [pack.mcmeta] or for
    one without a ["pack"] key, asks that one question, writes the
    default document and returns; nothing of the old document is
    kept. *)
Theorem accepted_reset_writes_default path content w :
  next_answer w = Some true ->
  match content with
  | None => True
  | Some (JDict d) => Py.dict_has d "pack" = false
  | Some _ => False
  end ->
  exists w',
    check_pack_mcmeta path content w = (Normal tt, w')
    /\ log w'
       = log w ++ [Asked (match content with
                          | None => PackMcmetaJsonError
                          | Some _ => PackKeywordMissing
                          end);
                   Dumped (pack_mcmeta path) DEFAULT_JSON].
Proof. apply check_pack_reset. Qed.

Lemma accepted_reset_writes_default_witness :
  exists w',
    check_pack_mcmeta "pack" (Some (JDict [("description", JStr "mine")]))
      (mkWorld false false ["Y"] [])
    = (Normal tt, w')
    /\ log w' = [Asked PackKeywordMissing; Dumped (pack_mcmeta "pack") DEFAULT_JSON].
Proof.
  apply (accepted_reset_writes_default "pack"
           (Some (JDict [("description", JStr "mine")]))
           (mkWorld false false ["Y"] []));
    reflexivity.
Defined.

(** X6: with every fix accepted, [check_pack_mcmeta] returns for every
    repairable [pack.mcmeta], and what it wrote needs no further repair:
    run again on the written document, it asks nothing and writes the same
    document. *)
Theorem pack_repair_idempotent path content w :
  repairable content = true ->
  AUTO_FIX w = true ->
  exists doc events w',
    check_pack_mcmeta path content w = (Normal tt, w')
    /\ log w' = log w ++ events ++ [Dumped (pack_mcmeta path) doc]
    /\ forall w2,
         check_pack_mcmeta path (Some doc) w2
         = (Normal tt, logged w2 [Dumped (pack_mcmeta path) doc]).
Proof.
  intros Hr Ha.
  assert (Hn : next_answer w = Some true) by (unfold next_answer; now rewrite Ha).
  assert (Hreset : forall content,
             match content with
             | None => True
             | Some (JDict d) => Py.dict_has d "pack" = false
             | Some _ => False
             end ->
             exists doc events w',
               check_pack_mcmeta path content w = (Normal tt, w')
               /\ log w' = log w ++ events ++ [Dumped (pack_mcmeta path) doc]
               /\ forall w2,
                    check_pack_mcmeta path (Some doc) w2
                    = (Normal tt, logged w2 [Dumped (pack_mcmeta path) doc])).
  { intros c Hc. destruct (check_pack_reset path c w Hn Hc) as (w' & E & L).
    exists DEFAULT_JSON, [Asked (match c with
                                 | None => PackMcmetaJsonError
                                 | Some _ => PackKeywordMissing
                                 end)], w'.
    split; [exact E|]. split; [exact L|].
    intros w2. apply check_pack_complete, DEFAULT_JSON_complete. }
  destruct content as [[| | | | |d]|]; try discriminate Hr.
  - cbn [repairable] in Hr.
    destruct (Py.dict_get d "pack") as [[| | | | |pack]|] eqn:Hd; try discriminate Hr.
    + destruct (check_pack_auto path d pack w Ha Hd) as (w' & E & L).
      eexists _, (pack_questions pack), w'. split; [exact E|]. split; [exact L|].
      intros w2. apply check_pack_complete, repaired_pack_complete.
    + apply (Hreset (Some (JDict d))). now rewrite dict_has_get, Hd.
  - now apply (Hreset None).
Qed.

Lemma pack_repair_idempotent_witness :
  exists doc events w',
    check_pack_mcmeta "pack" None (mkWorld true false [] []) = (Normal tt, w')
    /\ log w' = [] ++ events ++ [Dumped (pack_mcmeta "pack") doc]
    /\ forall w2,
         check_pack_mcmeta "pack" (Some doc) w2
         = (Normal tt, logged w2 [Dumped (pack_mcmeta "pack") doc]).
Proof.
  apply (pack_repair_idempotent "pack" None (mkWorld true false [] []));
    reflexivity.
Defined.

(** ** [check_vanilla_json], continued *)

Lemma traverse_app_raise {A B} (f : A -> result B) before x after ys e :
  traverse f before = Normal ys ->
  f x = Raise e ->
  traverse f (before ++ x :: after) = Raise e.
Proof.
  revert ys. induction before as [|b before IH]; intros ys; cbn [traverse app].
  - intros _ ->. reflexivity.
  - destruct (f b); cbn [rbind]; [|discriminate].
    destruct (traverse f before) as [ys'|] eqn:T; cbn [rbind]; [|discriminate].
    intros _ Hx. now rewrite (IH ys' eq_refl Hx).
Qed.

Lemma custom_model_data_of_KeyError override key :
  custom_model_data_of override = Raise (KeyError key) ->
  key = "predicate" \/ key = "custom_model_data".
Proof.
  unfold custom_model_data_of.
  destruct override; cbn [Py.getitem rbind]; try discriminate.
  destruct (Py.dict_get d "predicate") as [predicate|]; cbn [rbind].
  - destruct predicate; cbn [Py.getitem]; try discriminate.
    destruct (Py.dict_get d0 "custom_model_data"); [discriminate|].
    intros [= <-]. now right.
  - intros [= <-]. now left.
Qed.

(** X7: when an override has no ["predicate"], or its predicate has no
    ["custom_model_data"], and every override before it has a
    discriminator, [check_vanilla_json] raises a [NoQuickFix] whose text
    is the missing key, before anything is asked or written; no other
    key can be named. *)
Theorem missing_discriminator_named p d before override after keys key w :
  Py.dict_get d "overrides" = Some (JList (before ++ override :: after)) ->
  traverse custom_model_data_of before = Normal keys ->
  custom_model_data_of override = Raise (KeyError key) ->
  check_vanilla_json p (JDict d) w = (Raise (NoQuickFix (KeyErrorArg key)), w)
  /\ (key = "predicate" \/ key = "custom_model_data").
Proof.
  intros Hd Hb Ho. split; [|now apply custom_model_data_of_KeyError in Ho].
  pose proof (traverse_app_raise _ _ _ after _ _ Hb Ho) as Ht.
  unfold check_vanilla_json, bind at 1 2 3, lift.
  cbn [Py.contains Py.getitem]. rewrite (dict_get_has _ _ _ Hd), Hd. cbn [negb].
  rewrite Ht.
  destruct before as [|b before]; cbn [app Py.first rbind].
  - now rewrite Ho.
  - cbn [traverse] in Hb. destruct (custom_model_data_of b); [|discriminate].
    reflexivity.
Qed.

Lemma missing_discriminator_named_witness :
  check_vanilla_json sword_json
    (vanilla_document [override_entry (JInt 1) "a";
                       JDict [("predicate", JDict []); ("model", JStr "b")]])
    (mkWorld false false [] [])
  = (Raise (NoQuickFix (KeyErrorArg "custom_model_data")), mkWorld false false [] []).
Proof.
  apply (missing_discriminator_named sword_json
           [("parent", JStr "item/generated");
            ("textures", JDict [("layer0", JStr "item/sword")]);
            ("overrides",
             JList [override_entry (JInt 1) "a";
                    JDict [("predicate", JDict []); ("model", JStr "b")]])]
           [override_entry (JInt 1) "a"]
           (JDict [("predicate", JDict []); ("model", JStr "b")]) []
           [JInt 1]);
    reflexivity.
Defined.

(** X8: an override without a ["model"] key is not reported as a
    [NoQuickFix]: once the discriminators have passed the duplicate scan
    and are in ascending order, the first override lacking the key makes
    [check_vanilla_json] raise a plain [KeyError], which [diagnose]
    takes in its clause for any other exception. *)
Theorem missing_model_KeyError p d entry rest keys w :
  Py.dict_get d "overrides" = Some (JList (JDict entry :: rest)) ->
  traverse custom_model_data_of (JDict entry :: rest) = Normal keys ->
  adjacent_equal (JInt (-1) :: keys) = false ->
  ascending_keys keys = true ->
  Py.dict_has entry "model" = false ->
  check_vanilla_json p (JDict d) w = (Raise (KeyError "model"), w)
  /\ diagnose_except (KeyError "model") = ExceptException.
Proof.
  intros Hd Ht Hdup Hasc Hm. split; [|reflexivity].
  rewrite (check_vanilla_json_scan p d _ _ w Hd ltac:(discriminate) Ht).
  apply (scan_duplicates_adjacent p) in Hdup. rewrite Hdup.
  rewrite rearrange_and_fix_sorted by (eapply sorted_ascending; eassumption).
  cbn [fix_models]. unfold bind at 1 2, lift at 1. cbn [Py.getitem].
  rewrite dict_has_get in Hm. destruct (Py.dict_get entry "model"); [discriminate|].
  reflexivity.
Qed.

Lemma missing_model_KeyError_witness :
  check_vanilla_json sword_json
    (vanilla_document [JDict [("predicate", JDict [("custom_model_data", JInt 1)])]])
    (mkWorld false false [] [])
  = (Raise (KeyError "model"), mkWorld false false [] []).
Proof.
  apply (missing_model_KeyError sword_json
           [("parent", JStr "item/generated");
            ("textures", JDict [("layer0", JStr "item/sword")]);
            ("overrides",
             JList [JDict [("predicate", JDict [("custom_model_data", JInt 1)])]])]
           [("predicate", JDict [("custom_model_data", JInt 1)])] [] [JInt 1]);
    reflexivity.
Defined.

Lemma insert_keyed_perm kx l l' :
  insert_keyed kx l = Normal l' -> Permutation (kx :: l) l'.
Proof.
  revert l'. induction l as [|ky l IH]; intros l'; cbn [insert_keyed].
  - intros [= <-]. reflexivity.
  - destruct (Py.lt (fst ky) (fst kx)) as [[]|]; cbn [rbind]; [| |discriminate].
    + destruct (insert_keyed kx l) as [rest|]; cbn [rbind]; [|discriminate].
      intros [= <-]. rewrite perm_swap. constructor. now apply IH.
    + intros [= <-]. reflexivity.
Qed.

Lemma sort_keyed_perm l l' : sort_keyed l = Normal l' -> Permutation l l'.
Proof.
  revert l'. induction l as [|kx l IH]; intros l'; cbn [sort_keyed].
  - intros [= <-]. reflexivity.
  - destruct (sort_keyed l) as [s|]; cbn [rbind]; [|discriminate].
    intros H. apply insert_keyed_perm in H. rewrite <- H. constructor. now apply IH.
Qed.

Lemma sorted_perm l key l' : sorted l key = Normal l' -> Permutation l l'.
Proof.
  unfold sorted. destruct (traverse key l) as [keys|] eqn:T; cbn [rbind]; [|discriminate].
  destruct (sort_keyed (combine keys l)) as [s|] eqn:S; cbn [rbind]; [|discriminate].
  intros [= <-]. destruct (traverse_combine _ _ _ T) as [_ Hs].
  rewrite <- Hs at 1. apply Permutation_map. now apply sort_keyed_perm.
Qed.

Lemma appends_impl {A} (P Q : event -> Prop) (m : M A) :
  (forall e, P e -> Q e) -> appends P m -> appends Q m.
Proof.
  intros H Hm w. destruct (Hm w) as (events & L & F).
  exists events. split; [exact L|]. eapply Forall_impl; eassumption.
Qed.

Lemma appends_bind_lift {A B} (P : event -> Prop) (r : result A) (k : A -> M B) :
  (forall a, r = Normal a -> appends P (k a)) -> appends P (bind (lift r) k).
Proof.
  intros Hk w. unfold bind, lift. destruct r as [a|e].
  - now apply Hk.
  - exists []. split; [now rewrite app_nil_r | constructor].
Qed.

Lemma appends_check_vanilla_json p d overrides :
  Py.dict_get d "overrides" = Some (JList overrides) ->
  appends (vanilla_event p d overrides) (check_vanilla_json p (JDict d)).
Proof.
  intros Hd. unfold check_vanilla_json. cbn [Py.contains Py.getitem].
  rewrite (dict_get_has _ _ _ Hd), Hd.
  apply appends_bind_lift. intros has [= <-]. cbn [negb].
  apply appends_bind_lift. intros value [= <-].
  apply appends_bind; [apply appends_lift|]. intros custom_model_data.
  apply appends_bind; [apply appends_lift|]. intros _.
  unfold rearrange_and_fix.
  apply appends_bind_lift. intros sorted_overrides Hs. apply sorted_perm in Hs.
  apply appends_bind.
  { destruct (negb _); [|apply appends_ret].
    apply appends_ask. right. now left. }
  intros rearrange. apply appends_bind.
  { destruct rearrange; [|apply appends_ret].
    apply appends_bind_lift. intros json' [= <-].
    apply appends_bind; [|intros; apply appends_ret].
    apply appends_dump. right. right. now exists sorted_overrides. }
  intros overrides'. apply appends_bind; [|intros; apply appends_lift].
  eapply appends_impl; [|apply appends_fix_models]. intros e He. now left.
Qed.

(** X9: whatever [check_vanilla_json] writes is the document with its
    overrides rearranged, entry for entry as they were read: the names
    [fix_name] corrects in the overrides are stored in memory only, and no
    rewrite of the file ever holds them.  Besides that rewrite the
    function logs only the prompt to rearrange and the prompts of
    [fix_name]. *)
Theorem vanilla_rewrite_keeps_entries p d overrides w :
  Py.dict_get d "overrides" = Some (JList overrides) ->
  exists events,
    log (snd (check_vanilla_json p (JDict d) w)) = log w ++ events
    /\ Forall (vanilla_event p d overrides) events.
Proof. intros Hd. now apply appends_check_vanilla_json. Qed.

Lemma vanilla_rewrite_keeps_entries_witness :
  exists events,
    log (snd (check_vanilla_json sword_json
                (vanilla_document [override_entry (JInt 2) "Item/B";
                                   override_entry (JInt 1) "item/a"])
                (mkWorld true false [] [])))
    = [] ++ events
    /\ Forall (vanilla_event sword_json
                 [("parent", JStr "item/generated");
                  ("textures", JDict [("layer0", JStr "item/sword")]);
                  ("overrides", JList [override_entry (JInt 2) "Item/B";
                                       override_entry (JInt 1) "item/a"])]
                 [override_entry (JInt 2) "Item/B"; override_entry (JInt 1) "item/a"])
         events.
Proof.
  apply (vanilla_rewrite_keeps_entries sword_json
           [("parent", JStr "item/generated");
            ("textures", JDict [("layer0", JStr "item/sword")]);
            ("overrides", JList [override_entry (JInt 2) "Item/B";
                                 override_entry (JInt 1) "item/a"])]
           [override_entry (JInt 2) "Item/B"; override_entry (JInt 1) "item/a"]
           (mkWorld true false [] [])).
  reflexivity.
Defined.

Example accepted_name_fix_not_written :
  check_vanilla_json sword_json
    (vanilla_document [override_entry (JInt 1) "Item/B"]) (mkWorld true false [] [])
  = (Normal [JStr "item/b"],
     mkWorld true true [] [Asked (InvalidFileName "Item/B")]).
Proof. reflexivity. Qed.

Lemma bind_normal_inv {A B} (m : M A) (k : A -> M B) w b w' :
  bind m k w = (Normal b, w') ->
  exists a w1, m w = (Normal a, w1) /\ k a w1 = (Normal b, w').
Proof.
  unfold bind. destruct (m w) as [[a|e] w1]; [|discriminate].
  intros H. now exists a, w1.
Qed.

Lemma fix_name_value_inv v w b v' w' :
  fix_name_value v w = (Normal (b, v'), w') ->
  exists s, v = JStr s
            /\ fixed_from s v'
            /\ AUTO_FIX w' = AUTO_FIX w
            /\ (AUTO_FIX w = true -> v' = JStr (normalized s)).
Proof.
  destruct v; try discriminate. cbn [fix_name_value]. intros H.
  apply bind_normal_inv in H as ([b0 s'] & w1 & E & R).
  cbn in R. injection R as <- <- <-. exists s. split; [reflexivity|].
  destruct (accounted_fix_name s w) as (_ & _ & Ha & _). rewrite E in Ha. cbn in Ha.
  repeat split.
  - destruct (fix_name_either _ _ _ _ _ E) as [-> | ->]; [now left | now right].
  - exact Ha.
  - intros Hw. destruct (fix_name_auto s w Hw) as (b' & w2 & E' & _).
    rewrite E in E'. now injection E' as _ -> _.
Qed.

Lemma fix_models_inv overrides w fixed w' :
  fix_models overrides w = (Normal fixed, w') ->
  exists names models,
    traverse model_of overrides = Normal (map JStr names)
    /\ traverse model_of fixed = Normal models
    /\ Forall2 fixed_from names models
    /\ (AUTO_FIX w = true -> models = map (fun s => JStr (normalized s)) names).
Proof.
  revert w fixed. induction overrides as [|override rest IH]; intros w fixed;
    cbn [fix_models].
  - intros [= <- _]. exists [], []. repeat split; constructor.
  - intros H.
    apply bind_normal_inv in H as (model & w1 & E1 & H). injection E1 as E1 <-.
    apply bind_normal_inv in H as ([b v'] & w2 & E2 & H).
    apply bind_normal_inv in H as (override' & w3 & E3 & H). injection E3 as E3 <-.
    apply bind_normal_inv in H as (rest' & w4 & E4 & H). injection H as <- <-.
    destruct (fix_name_value_inv _ _ _ _ _ E2) as (s & -> & Hf & Ha & Hauto).
    destruct (IH _ _ E4) as (names & models & T1 & T2 & F & Hauto').
    exists (s :: names), (v' :: models).
    cbn [traverse map]. unfold model_of at 1 3. rewrite E1, T1. cbn [rbind snd] in *.
    destruct override; try discriminate. cbn [Py.setitem] in E3. injection E3 as <-.
    cbn [Py.getitem]. rewrite dict_get_set_eq, T2. cbn [rbind].
    repeat split; [now constructor|].
    intros Hw. rewrite (Hauto Hw), Hauto' by congruence. reflexivity.
Qed.

(** X10: for overrides whose models are ASCII names, what
    [check_vanilla_json] returns is, for the overrides in the order it
    left them (as read, or rearranged), the ["model"] of each one, either
    as it stands in the document or normalized; with [AUTO_FIX] set every
    returned name is the normalized one. *)
Theorem vanilla_returns_models p d overrides w models :
  Py.dict_get d "overrides" = Some (JList overrides) ->
  ascii_models overrides = true ->
  fst (check_vanilla_json p (JDict d) w) = Normal models ->
  exists entries names,
    Permutation overrides entries
    /\ traverse model_of entries = Normal (map JStr names)
    /\ Forall2 fixed_from names models
    /\ (AUTO_FIX w = true -> models = map (fun s => JStr (normalized s)) names).
Proof.
  intros Hd _. destruct (check_vanilla_json p (JDict d) w) as [r w'] eqn:H.
  cbn [fst]. intros ->.
  unfold check_vanilla_json in H. cbn [Py.contains Py.getitem] in H.
  rewrite (dict_get_has _ _ _ Hd), Hd in H.
  apply bind_normal_inv in H as (has & w0 & [= <- <-] & H). cbn [negb] in H.
  apply bind_normal_inv in H as (value & w0 & [= <- <-] & H).
  apply bind_normal_inv in H as (keys & w0 & [= _ <-] & H).
  apply bind_normal_inv in H as (u & w0 & [= _ <-] & H).
  unfold rearrange_and_fix in H.
  apply bind_normal_inv in H as (sorted_overrides & w0 & [= Hs <-] & H).
  apply sorted_perm in Hs.
  apply bind_normal_inv in H as (rearrange & w1 & E1 & H).
  assert (A1 : AUTO_FIX w1 = AUTO_FIX w).
  { destruct (negb _).
    - destruct (accounted_ask (NotAscending p) w) as (_ & _ & Ha & _).
      now rewrite E1 in Ha.
    - now injection E1 as _ <-. }
  apply bind_normal_inv in H as (entries & w2 & E2 & H).
  assert (Hent : Permutation overrides entries /\ AUTO_FIX w2 = AUTO_FIX w).
  { destruct rearrange.
    - apply bind_normal_inv in E2 as (json' & w3 & [= _ <-] & E2).
      apply bind_normal_inv in E2 as (u' & w4 & Ed & Er).
      injection Er as <- <-. unfold dump, emit in Ed. injection Ed as _ <-.
      split; [exact Hs | exact A1].
    - injection E2 as <- <-. split; [reflexivity | exact A1]. }
  destruct Hent as [Hperm A2].
  apply bind_normal_inv in H as (fixed & w3 & E3 & [= H _]).
  destruct (fix_models_inv _ _ _ _ E3) as (names & models' & T1 & T2 & F & Hauto).
  change (traverse model_of fixed = Normal models) in H.
  rewrite T2 in H. injection H as <-.
  exists entries, names. repeat split; try assumption.
  intros Hw. apply Hauto. congruence.
Qed.

Lemma vanilla_returns_models_witness :
  exists entries names,
    Permutation [override_entry (JInt 2) "Item/B"; override_entry (JInt 1) "a"] entries
    /\ traverse model_of entries = Normal (map JStr names)
    /\ Forall2 fixed_from names [JStr "a"; JStr "item/b"]
    /\ (true = true ->
        [JStr "a"; JStr "item/b"] = map (fun s => JStr (normalized s)) names).
Proof.
  apply (vanilla_returns_models sword_json
           [("parent", JStr "item/generated");
            ("textures", JDict [("layer0", JStr "item/sword")]);
            ("overrides", JList [override_entry (JInt 2) "Item/B";
                                 override_entry (JInt 1) "a"])]
           [override_entry (JInt 2) "Item/B"; override_entry (JInt 1) "a"]
           (mkWorld true false [] []));
    reflexivity.
Defined.

(** ** [check_custom_json], continued *)

Lemma check_custom_json_unfold p d items w :
  Py.dict_get d "textures" = Some (JDict items) ->
  Py.dict_has d "elements" = true ->
  PyStr.contains missing_marker (Dumps.dumps (JDict d)) = false ->
  check_custom_json p (JDict d) w
  = (fixed_textures <- fix_textures items;;
     replace <-
       (if negb (Py.eq (JDict items) (JDict fixed_textures))
        then ask (InvalidTextures p) else ret false);;
     if replace : bool then
       json' <- lift (Py.setitem (JDict d) "textures" (JDict fixed_textures));;
       dump p json';;
       ret (map snd fixed_textures)
     else ret (map snd items)) w.
Proof.
  intros Hd He Hm. unfold check_custom_json, bind at 1 2, lift at 1 2.
  cbn [Py.getitem Py.contains]. rewrite Hd, He. cbn [negb]. now rewrite Hm.
Qed.

Lemma fix_textures_clean items strs w :
  map snd items = map JStr strs ->
  Forall (fun s => passes_fix_name s = true) strs ->
  fix_textures items w = (Normal items, w).
Proof.
  revert strs. induction items as [|[key texture] items IH]; intros strs Hs Hc.
  - reflexivity.
  - destruct strs as [|s strs]; [discriminate|]. cbn [map snd] in Hs.
    injection Hs as -> Hs. apply Forall_cons in Hc as [Hc Hcs].
    cbn [fix_textures fix_name_value]. unfold bind at 1 2.
    rewrite (fix_name_clean s w Hc). cbn [ret fst snd]. unfold bind.
    now rewrite (IH strs Hs Hcs).
Qed.

(** X11: a Custom document whose texture references are ASCII names that
    all pass the test of [fix_name] (a lowercase letter, no uppercase
    character, no space) goes through [check_custom_json] without a
    question and without a rewrite, and its texture values are returned
    as they are. *)
Theorem clean_textures_pass_silently p d items strs w :
  Py.dict_get d "textures" = Some (JDict items) ->
  Py.dict_has d "elements" = true ->
  PyStr.contains missing_marker (Dumps.dumps (JDict d)) = false ->
  map snd items = map JStr strs ->
  Forall (fun s => PyStr.isascii s = true) strs ->
  Forall (fun s => passes_fix_name s = true) strs ->
  check_custom_json p (JDict d) w = (Normal (map JStr strs), w).
Proof.
  intros Hd He Hm Hs _ Hc. rewrite (check_custom_json_unfold _ _ _ _ Hd He Hm).
  unfold bind at 1. rewrite (fix_textures_clean _ _ _ Hs Hc).
  rewrite py_eq_refl. cbn. now rewrite Hs.
Qed.

Lemma clean_textures_pass_silently_witness :
  check_custom_json sword_json
    (JDict [("textures", JDict [("0", JStr "item/blade"); ("particle", JStr "item/blade")]);
            ("elements", JList [])])
    (mkWorld false false [] [])
  = (Normal [JStr "item/blade"; JStr "item/blade"], mkWorld false false [] []).
Proof.
  apply (clean_textures_pass_silently sword_json
           [("textures", JDict [("0", JStr "item/blade"); ("particle", JStr "item/blade")]);
            ("elements", JList [])]
           [("0", JStr "item/blade"); ("particle", JStr "item/blade")]
           ["item/blade"; "item/blade"]);
    try reflexivity; repeat constructor.
Defined.

Lemma appends_fix_textures items : appends is_name_prompt (fix_textures items).
Proof.
  induction items as [|[key texture] rest IH]; cbn [fix_textures]; [apply appends_ret|].
  apply appends_bind; [apply appends_fix_name_value|]. intros fixed.
  apply appends_bind; [exact IH|]. intros rest'. apply appends_ret.
Qed.

Lemma fix_textures_keys items w fixed w' :
  fix_textures items w = (Normal fixed, w') -> map fst fixed = map fst items.
Proof.
  revert w fixed w'. induction items as [|[key texture] items IH]; intros w fixed w';
    cbn [fix_textures].
  - now intros [= <- _].
  - intros H.
    apply bind_normal_inv in H as (r & w1 & _ & H).
    apply bind_normal_inv in H as (rest' & w2 & E & H). injection H as <- _.
    cbn [map fst]. f_equal. eapply IH, E.
Qed.

(** X12: with [AUTO_FIX] set, a Custom document whose texture references
    are ASCII names, at least one of them holding an uppercase character
    or a space, is rewritten once, after the prompts of [fix_name] and the one prompt for the whole
    map: the document written is the one read with its textures map
    replaced by a map of the same slots, in the same order, holding the
    normalized references, and these are the values returned. *)
Theorem auto_fix_rewrites_textures p d items strs w :
  Py.dict_get d "textures" = Some (JDict items) ->
  Py.dict_has d "elements" = true ->
  PyStr.contains missing_marker (Dumps.dumps (JDict d)) = false ->
  map snd items = map JStr strs ->
  Forall (fun s => PyStr.isascii s = true) strs ->
  AUTO_FIX w = true ->
  Exists (fun s => needs_fix s = true) strs ->
  exists fixed prompts w',
    check_custom_json p (JDict d) w = (Normal (map snd fixed), w')
    /\ map fst fixed = map fst items
    /\ map snd fixed = map (fun s => JStr (normalized s)) strs
    /\ log w'
       = log w ++ prompts
         ++ [Asked (InvalidTextures p);
             Dumped p (JDict (Py.dict_set d "textures" (JDict fixed)))]
    /\ Forall is_name_prompt prompts.
Proof.
  intros Hd He Hm Hs _ Ha Hdirty.
  destruct (fix_textures_auto items strs w Hs Ha) as (fixed & w1 & E & A1 & V).
  destruct (appends_fix_textures items w) as (prompts & L & F).
  rewrite E in L. cbn [snd] in L.
  exists fixed, prompts.
  rewrite (check_custom_json_unfold _ _ _ _ Hd He Hm). unfold bind at 1. rewrite E.
  assert (Q : Py.eq (JDict items) (JDict fixed) = false).
  { destruct (Py.eq (JDict items) (JDict fixed)) eqn:Q; [|reflexivity].
    pose proof (unchanged_textures_normalized _ _ _ _ Q Hs V) as Hsame.
    exfalso. apply Exists_exists in Hdirty as (s & Hin & Hneeds).
    assert (Hclean : Forall (fun s => needs_fix s = false) strs).
    { clear -Hsame. induction strs as [|s strs IH]; [constructor|].
      cbn [map] in Hsame. injection Hsame as Hs Hrest.
      constructor; [rewrite Hs; apply normalized_clean | now apply IH]. }
    rewrite Forall_forall in Hclean. specialize (Hclean s Hin). congruence. }
  rewrite Q. cbn [negb]. unfold bind at 1. rewrite (ask_auto _ _ A1).
  eexists. split; [reflexivity|]. split; [eapply fix_textures_keys, E|].
  split; [exact V|]. split; [|exact F].
  cbn [log]. rewrite L, <- !app_assoc. reflexivity.
Qed.

Lemma auto_fix_rewrites_textures_witness :
  exists fixed prompts w',
    check_custom_json sword_json
      (JDict [("textures", JDict [("0", JStr "item/My Sword")]); ("elements", JList [])])
      (mkWorld true false [] [])
    = (Normal (map snd fixed), w')
    /\ map fst fixed = map fst [("0", JStr "item/My Sword")]
    /\ map snd fixed = map (fun s => JStr (normalized s)) ["item/My Sword"]
    /\ log w'
       = [] ++ prompts
         ++ [Asked (InvalidTextures sword_json);
             Dumped sword_json
               (JDict (Py.dict_set
                         [("textures", JDict [("0", JStr "item/My Sword")]);
                          ("elements", JList [])]
                         "textures" (JDict fixed)))]
    /\ Forall is_name_prompt prompts.
Proof.
  apply (auto_fix_rewrites_textures sword_json
           [("textures", JDict [("0", JStr "item/My Sword")]); ("elements", JList [])]
           [("0", JStr "item/My Sword")] ["item/My Sword"]
           (mkWorld true false [] []));
    try reflexivity; repeat constructor.
Defined.

(** ** The placeholder test of [check_custom_json] *)

Lemma dumps_JDict d : Dumps.dumps (JDict d) = "{" +:+ dumps_items d +:+ "}".
Proof.
  destruct d; reflexivity.
Qed.

Lemma prefix_app sub a b :
  String.prefix sub a = true -> String.prefix sub (a +:+ b) = true.
Proof.
  revert a. induction sub as [|c sub IH]; intros a;
    [intros _; now destruct (a +:+ b)|].
  destruct a as [|c' a]; [discriminate|].
  change (String c' a +:+ b) with (String c' (a +:+ b)).
  cbn [String.prefix].
  destruct (ascii_dec c c'); [apply IH | discriminate].
Qed.

Lemma contains_app_l sub a b :
  PyStr.contains sub a = true -> PyStr.contains sub (a +:+ b) = true.
Proof.
  induction a as [|c a IH]; cbn [PyStr.contains String.append].
  - rewrite orb_false_r. intros H.
    destruct sub; [now destruct b | discriminate].
  - intros [H|H]%orb_true_iff; apply orb_true_iff.
    + left. now apply (prefix_app sub (String c a) b).
    + right. now apply IH.
Qed.

Lemma contains_app_r sub a b :
  PyStr.contains sub b = true -> PyStr.contains sub (a +:+ b) = true.
Proof.
  intros H. induction a as [|c a IH]; cbn [PyStr.contains String.append]; [exact H|].
  apply orb_true_iff. now right.
Qed.

Lemma contains_dumps_items m d k v :
  In (k, v) d ->
  PyStr.contains m (Dumps.dumps v) = true ->
  PyStr.contains m (dumps_items d) = true.
Proof.
  intros Hin Hv. induction d as [|[k' x] d IH]; [contradiction|].
  assert (Hhere : (k', x) = (k, v) ->
                  forall rest,
                    PyStr.contains m (Dumps.quoted k' +:+ ": " +:+ Dumps.dumps x +:+ rest)
                    = true).
  { intros [= -> ->] rest. apply contains_app_r.
    apply (contains_app_r m ": "). now apply contains_app_l. }
  destruct d as [|kx d].
  - destruct Hin as [[= -> ->]|[]]. cbn [dumps_items].
    apply contains_app_r. now apply (contains_app_r m ": ").
  - change (dumps_items ((k', x) :: kx :: d))
      with (Dumps.quoted k' +:+ ": " +:+ Dumps.dumps x +:+ ", " +:+ dumps_items (kx :: d)).
    destruct Hin as [Hin|Hin]; [now apply Hhere|].
    do 4 apply contains_app_r. now apply IH.
Qed.

Lemma contains_dumps_dict m d k v :
  In (k, v) d ->
  PyStr.contains m (Dumps.dumps v) = true ->
  PyStr.contains m (Dumps.dumps (JDict d)) = true.
Proof.
  intros Hin Hv. rewrite dumps_JDict. apply (contains_app_r m "{").
  apply contains_app_l. eapply contains_dumps_items; eassumption.
Qed.

Lemma dict_get_In d key v : Py.dict_get d key = Some v -> In (key, v) d.
Proof.
  induction d as [|[k w] d IH]; cbn [Py.dict_get]; [discriminate|].
  destruct (String.eqb_spec key k) as [->|_].
  - intros [= ->]. now left.
  - intros H. right. now apply IH.
Qed.

Lemma prefix_append a b : String.prefix a (a +:+ b) = true.
Proof.
  induction a as [|c a IH]; [now destruct b|].
  change (String c a +:+ b) with (String c (a +:+ b)). cbn [String.prefix].
  destruct (ascii_dec c c); [exact IH | contradiction].
Qed.

Lemma marker_in_dumps rest :
  PyStr.contains missing_marker (Dumps.dumps (JStr ("#missing" +:+ rest))) = true.
Proof.
  change (Dumps.dumps (JStr ("#missing" +:+ rest)))
    with (missing_marker +:+ (Dumps.escape rest +:+ String PyStr.dquote "")).
  generalize (Dumps.escape rest +:+ String PyStr.dquote ""). intros tail.
  destruct (missing_marker +:+ tail) eqn:E; [discriminate|].
  cbn [PyStr.contains]. apply orb_true_iff. left. rewrite <- E. apply prefix_append.
Qed.

(** X13: a textures map with a reference that begins with [#missing]
    stops [check_custom_json] with the [NoQuickFix] for a missing texture,
    whatever slot holds it and whatever the other references are;
    nothing is asked and nothing is written. *)
Theorem missing_texture_stops_check p d items slot rest w :
  Py.dict_get d "textures" = Some (JDict items) ->
  Py.dict_has d "elements" = true ->
  In (slot, JStr ("#missing" +:+ rest)) items ->
  check_custom_json p (JDict d) w = (Raise (NoQuickFix (MissingTextureFound p)), w).
Proof.
  intros Hd He Hin.
  assert (Hm : PyStr.contains missing_marker (Dumps.dumps (JDict d)) = true).
  { apply (contains_dumps_dict _ _ "textures" (JDict items));
      [now apply dict_get_In|].
    apply (contains_dumps_dict _ _ slot (JStr ("#missing" +:+ rest)) Hin).
    apply marker_in_dumps. }
  unfold check_custom_json, bind at 1 2, lift at 1 2.
  cbn [Py.getitem Py.contains]. rewrite Hd, He. cbn [negb]. now rewrite Hm.
Qed.

Lemma missing_texture_stops_check_witness :
  check_custom_json sword_json
    (JDict [("textures", JDict [("0", JStr "item/blade"); ("1", JStr "#missing")]);
            ("elements", JList [])])
    (mkWorld true false [] [])
  = (Raise (NoQuickFix (MissingTextureFound sword_json)), mkWorld true false [] []).
Proof.
  apply (missing_texture_stops_check sword_json
           [("textures", JDict [("0", JStr "item/blade"); ("1", JStr "#missing")]);
            ("elements", JList [])]
           [("0", JStr "item/blade"); ("1", JStr "#missing")] "1" "");
    [reflexivity | reflexivity |].
  right. left. reflexivity.
Defined.

(** ** Classification and routing *)

(** X14: a document is classified Standard only if it is an object with a
    ["parent"] key whose ["textures"] entry is an object holding, under
    ["layer0"], the string item/<stem> of its file: whatever
    [check_vanilla_json] receives from [check_files] is such an
    object. *)
Theorem vanilla_implies_shape p json :
  is_vanilla_json p json = Normal true ->
  exists d textures,
    json = JDict d
    /\ Py.dict_has d "parent" = true
    /\ Py.dict_get d "textures" = Some (JDict textures)
    /\ Py.dict_get textures "layer0" = Some (JStr ("item/" +:+ stem p)).
Proof.
  unfold is_vanilla_json.
  destruct json as [| | | s | l | d]; cbn [Py.contains Py.getitem rbind];
    try discriminate.
  - destruct (negb _); [discriminate|]. destruct (negb _); discriminate.
  - destruct (negb _); [discriminate|]. destruct (negb _); discriminate.
  - destruct (Py.dict_has d "textures"); cbn [negb]; [|discriminate].
    destruct (Py.dict_has d "parent") eqn:Hp; cbn [negb]; [|discriminate].
    destruct (Py.dict_get d "textures") as [textures|] eqn:Ht; cbn [rbind];
      [|discriminate].
    destruct (Py.contains textures "layer0") as [[]|] eqn:Hc; cbn [rbind negb];
      try discriminate.
    destruct textures as [| | | | |t]; cbn [Py.getitem rbind]; try discriminate.
    destruct (Py.dict_get t "layer0") as [layer0|] eqn:Hl; cbn [rbind];
      [|discriminate].
    intros [= He]. apply eq_JStr in He. subst layer0.
    now exists d, t.
Qed.

Lemma vanilla_implies_shape_witness :
  exists d textures,
    vanilla_document [] = JDict d
    /\ Py.dict_has d "parent" = true
    /\ Py.dict_get d "textures" = Some (JDict textures)
    /\ Py.dict_get textures "layer0" = Some (JStr ("item/" +:+ stem sword_json)).
Proof.
  apply (vanilla_implies_shape sword_json (vanilla_document [])). reflexivity.
Defined.

Lemma elem_of_add_each x values s :
  x ∈ add_each values s <-> x ∈ s \/ In (JStr x) values.
Proof.
  revert s. induction values as [|v values IH]; intros s; cbn [add_each In].
  - tauto.
  - destruct v; rewrite IH;
      try (split; [tauto | intros [?|[?|?]]; [tauto | discriminate | tauto]]).
    rewrite elem_of_union, elem_of_singleton. split.
    + intros [[->|?]|?]; auto.
    + intros [?|[[= ->]|?]]; auto.
Qed.

(** X15: the check of one document only adds to the four sets.  A
    Standard document adds the models it references to the model keys and
    nothing else; a Custom document adds its own identifier,
    <directory>/<stem>, to the model files and the textures it references
    to the texture keys; neither touches the set of texture files. *)
Theorem document_only_adds p rel_parent json n w n' w' :
  check_document p rel_parent json n w = (Normal n', w') ->
  exists vanilla values,
    is_vanilla_json p json = Normal vanilla
    /\ set_of_textures_file n' = set_of_textures_file n
    /\ if vanilla : bool then
         fst (check_vanilla_json p json w) = Normal values
         /\ set_of_model_key n' = names_of values ∪ set_of_model_key n
         /\ set_of_model_file n' = set_of_model_file n
         /\ set_of_textures_key n' = set_of_textures_key n
       else
         fst (check_custom_json p json w) = Normal values
         /\ set_of_textures_key n' = names_of values ∪ set_of_textures_key n
         /\ set_of_model_file n'
            = {[rel_parent +:+ "/" +:+ stem p]} ∪ set_of_model_file n
         /\ set_of_model_key n' = set_of_model_key n.
Proof.
  assert (Hadd : forall values s, add_each values s = names_of values ∪ s).
  { intros values s. apply set_eq. intros x. unfold names_of.
    rewrite elem_of_union, !elem_of_add_each.
    pose proof (not_elem_of_empty (C:=gset string) x). tauto. }
  unfold check_document. intros H.
  apply bind_normal_inv in H as (vanilla & w0 & [= Hv <-] & H).
  exists vanilla. destruct vanilla.
  - apply bind_normal_inv in H as (models & w1 & E & [= <- _]).
    exists models. rewrite E. cbn. rewrite Hadd. repeat split. exact Hv.
  - apply bind_normal_inv in H as (textures & w1 & E & [= <- _]).
    exists textures. rewrite E. cbn. rewrite Hadd. repeat split. exact Hv.
Qed.

Lemma document_only_adds_witness :
  exists vanilla values,
    is_vanilla_json sword_json (vanilla_document [override_entry (JInt 1) "item/a"])
    = Normal vanilla
    /\ fst (check_vanilla_json sword_json
              (vanilla_document [override_entry (JInt 1) "item/a"])
              (mkWorld false false [] []))
       = Normal values.
Proof.
  destruct (document_only_adds sword_json "item"
              (vanilla_document [override_entry (JInt 1) "item/a"]) no_names
              (mkWorld false false [] [])
              (mkNames ∅ (add_each [JStr "item/a"] ∅) ∅ ∅)
              (mkWorld false false [] []) eq_refl)
    as (vanilla & values & Hv & _ & H).
  exists vanilla, values. split; [exact Hv|].
  assert (Hvanilla : vanilla = true) by (cbv in Hv; now injection Hv).
  subst vanilla. apply H.
Defined.

(** ** The report, continued *)

Lemma difference_empty_subseteq (X Y : gset string) : X ∖ Y = ∅ <-> X ⊆ Y.
Proof.
  split; [|apply subseteq_empty_difference_L].
  intros H x Hx. destruct (decide (x ∈ Y)) as [|Hn]; [assumption|].
  exfalso. apply (not_elem_of_empty (C:=gset string) x).
  rewrite <- H. apply elem_of_difference. now split.
Qed.

Lemma differences_empty_equal (X Y : gset string) :
  X ∖ Y = ∅ /\ Y ∖ X = ∅ <-> X = Y.
Proof.
  rewrite !difference_empty_subseteq. split.
  - intros [H1 H2]. apply set_eq. intros x. split; [apply H1 | apply H2].
  - intros ->. now split.
Qed.

(** X16: the walk ends without the [NoQuickFix] for unmatched names
    exactly when the model keys are the model files and the texture keys
    are the texture files, as sets. *)
Theorem report_passes_iff_equal n :
  report_unmatched n = Normal tt
  <-> set_of_model_key n = set_of_model_file n
      /\ set_of_textures_key n = set_of_textures_file n.
Proof.
  rewrite <- (differences_empty_equal (set_of_model_key n) (set_of_model_file n)).
  rewrite <- (differences_empty_equal (set_of_textures_key n) (set_of_textures_file n)).
  unfold report_unmatched, append_if_any.
  destruct (decide (set_of_model_key n ∖ set_of_model_file n = ∅)) as [A|A],
    (decide (set_of_model_file n ∖ set_of_model_key n = ∅)) as [B|B],
    (decide (set_of_textures_key n ∖ set_of_textures_file n = ∅)) as [C|C],
    (decide (set_of_textures_file n ∖ set_of_textures_key n = ∅)) as [D|D];
    cbn [app];
    (split; [intros H; first [discriminate H | tauto]
            | intros H; first [reflexivity | tauto]]).
Qed.

(** ** Names, stems and suffixes *)

Lemma append_cons c a b : String c a +:+ b = String c (a +:+ b).
Proof. reflexivity. Qed.

Lemma append_nil_r a : a +:+ "" = a.
Proof. induction a as [|c a IH]; [reflexivity | now rewrite append_cons, IH]. Qed.

Lemma take_drop i s : PyStr.take i s +:+ str_drop i s = s.
Proof.
  revert s. induction i as [|i IH]; intros [|c s]; try reflexivity.
  cbn [PyStr.take str_drop]. now rewrite append_cons, IH.
Qed.

(** X17: the stem and the suffix of a path, as [check_non_json] and
    [check_non_png] read them, cut its name in two: stem followed by
    suffix is the name again. *)
Theorem stem_suffix_name p : stem p +:+ suffix p = name p.
Proof.
  unfold stem, suffix. destruct (PyStr.rfind_dot (name p)) as [i|].
  - destruct (_ && _); [apply take_drop | apply append_nil_r].
  - apply append_nil_r.
Qed.

Lemma rfind_dot_append t ext :
  PyStr.rfind_dot ext = None ->
  PyStr.rfind_dot (t +:+ String PyStr.dot ext) = Some (String.length t).
Proof.
  intros He. induction t as [|c t IH].
  - change ("" +:+ String PyStr.dot ext) with (String PyStr.dot ext).
    cbn [PyStr.rfind_dot String.length]. rewrite He.
    now rewrite Ascii.eqb_refl.
  - rewrite append_cons. cbn [PyStr.rfind_dot String.length]. now rewrite IH.
Qed.

Lemma length_append a b :
  String.length (a +:+ b) = (String.length a + String.length b)%nat.
Proof.
  induction a as [|c a IH]; [reflexivity|].
  rewrite append_cons. cbn [String.length Nat.add]. now rewrite IH.
Qed.

Lemma drop_append t x : str_drop (String.length t) (t +:+ x) = x.
Proof. induction t as [|c t IH]; [now destruct x | exact IH]. Qed.

Lemma suffix_append dir t ext :
  t <> "" -> ext <> "" -> PyStr.rfind_dot ext = None ->
  suffix (mkPath dir (t +:+ String PyStr.dot ext)) = String PyStr.dot ext.
Proof.
  intros Ht He Hd. unfold suffix. cbn [name]. rewrite (rfind_dot_append t ext Hd).
  rewrite length_append. cbn [String.length].
  assert (H1 : Nat.ltb 0 (String.length t) = true)
    by (apply Nat.ltb_lt; destruct t; [congruence | cbn; lia]).
  assert (H2 : Nat.ltb (String.length t)
                 (String.length t + S (String.length ext) - 1) = true)
    by (apply Nat.ltb_lt; destruct ext; [congruence | cbn; lia]).
  rewrite H1, H2. cbn [andb]. apply drop_append.
Qed.

Lemma length_drop i s :
  String.length (str_drop i s) = (String.length s - i)%nat.
Proof.
  revert s. induction i as [|i IH]; intros [|c s]; cbn [str_drop String.length];
    try lia. now rewrite IH.
Qed.

Lemma suffix_dot_only dir ext :
  suffix (mkPath dir (String PyStr.dot ext)) <> String PyStr.dot ext.
Proof.
  unfold suffix. cbn [name].
  destruct (PyStr.rfind_dot (String PyStr.dot ext)) as [i|]; [|discriminate].
  destruct (Nat.ltb 0 i) eqn:Hi; cbn [andb]; [|discriminate].
  destruct (Nat.ltb i _); [|discriminate].
  apply Nat.ltb_lt in Hi. intros H.
  assert (L : String.length (str_drop i (String PyStr.dot ext))
              = String.length (String PyStr.dot ext)) by now rewrite H.
  rewrite length_drop in L. cbn [String.length] in L. lia.
Qed.

Lemma endswith_split s ending :
  endswith s ending = true -> exists t, s = t +:+ ending.
Proof.
  induction s as [|c s IH]; cbn [endswith].
  - rewrite orb_false_r. intros H%String.eqb_eq. exists "". now subst.
  - intros [H%String.eqb_eq | H]%orb_true_iff.
    + exists "". now subst.
    + destruct (IH H) as [t ->]. now exists (String c t).
Qed.

Lemma stem_nonempty p : name p <> "" -> stem p <> "".
Proof.
  unfold stem. intros Hn. destruct (PyStr.rfind_dot (name p)) as [i|]; [|exact Hn].
  destruct (Nat.ltb 0 i) eqn:Hi; cbn [andb]; [|exact Hn].
  destruct (Nat.ltb i _); [|exact Hn].
  apply Nat.ltb_lt in Hi. destruct i; [lia|].
  destruct (name p); [congruence | discriminate].
Qed.

Lemma check_non_json_idle p w :
  suffix p = ".json" -> check_non_json p w = (Normal None, w).
Proof. intros H. unfold check_non_json. now rewrite H. Qed.

(** X18: when [check_non_json] asks for a rename, the new path is in the
    same directory and, unless the stem of the old name is exactly
    [.json], its suffix is [.json]: [check_non_json] has nothing to ask
    about the renamed file. *)
Theorem check_non_json_renames_to_json p w q w' :
  check_non_json p w = (Normal (Some q), w') ->
  name p <> "" ->
  stem p <> ".json" ->
  parent q = parent p
  /\ suffix q = ".json"
  /\ forall w2, check_non_json q w2 = (Normal None, w2).
Proof.
  unfold check_non_json. intros H Hn Hs.
  destruct (negb _); [|discriminate].
  apply bind_normal_inv in H as ([] & w1 & _ & H); [|discriminate].
  assert (Hq : parent q = parent p /\ suffix q = ".json").
  { destruct (endswith (stem p) ".json") eqn:E; injection H as <- _; cbn [parent].
    - split; [reflexivity|].
      apply endswith_split in E as [t Et]. rewrite Et.
      apply (suffix_append (parent p) t "json"); [|discriminate|reflexivity].
      intros ->. now apply Hs.
    - split; [reflexivity|].
      apply (suffix_append (parent p) (stem p) "json");
        [now apply stem_nonempty | discriminate | reflexivity]. }
  destruct Hq as [Hp Hq]. repeat split; [exact Hp | exact Hq |].
  intros w2. now apply check_non_json_idle.
Qed.

Lemma check_non_json_renames_to_json_witness :
  parent (mkPath "models/item" "sword.json") = "models/item"
  /\ suffix (mkPath "models/item" "sword.json") = ".json"
  /\ forall w2,
       check_non_json (mkPath "models/item" "sword.json") w2 = (Normal None, w2).
Proof.
  apply (check_non_json_renames_to_json (mkPath "models/item" "sword.json.txt")
           (mkWorld true false [] []) (mkPath "models/item" "sword.json")
           (mkWorld true true [] [Asked (NotJsonFile (mkPath "models/item" "sword.json.txt"))]));
    [reflexivity | discriminate | discriminate].
Defined.

(** X19: [check_non_png] renames to a [.png] name only a file whose stem
    does not end in [.json]: for a stem ending in [.json] it drops the old
    suffix and keeps the stem as the name, which is not a [.png] name, so
    the same question comes back for the renamed file. *)
Theorem check_non_png_target p w q w' :
  check_non_png p w = (Normal (Some q), w') ->
  name p <> "" ->
  parent q = parent p
  /\ if endswith (stem p) ".json"
     then name q = stem p /\ suffix q <> ".png"
     else name q = stem p +:+ ".png" /\ suffix q = ".png".
Proof.
  unfold check_non_png. intros H Hn.
  destruct (negb _); [|discriminate].
  apply bind_normal_inv in H as ([] & w1 & _ & H); [|discriminate].
  destruct (endswith (stem p) ".json") eqn:E; injection H as <- _; cbn [parent name].
  - repeat split.
    apply endswith_split in E as [t Et]. rewrite Et.
    destruct t as [|c t].
    + change ("" +:+ ".json") with ".json". unfold suffix. cbn. discriminate.
    + enough (Hsuf : suffix (mkPath (parent p) (String c t +:+ ".json")) = ".json")
        by (rewrite Hsuf; discriminate).
      apply (suffix_append (parent p) (String c t) "json");
        [discriminate | discriminate | reflexivity].
  - repeat split.
    apply (suffix_append (parent p) (stem p) "png");
      [now apply stem_nonempty | discriminate | reflexivity].
Qed.

Lemma check_non_png_target_witness :
  parent (mkPath "textures/item" "blade.json") = "textures/item"
  /\ if endswith (stem (mkPath "textures/item" "blade.json.txt")) ".json"
     then name (mkPath "textures/item" "blade.json")
          = stem (mkPath "textures/item" "blade.json.txt")
          /\ suffix (mkPath "textures/item" "blade.json") <> ".png"
     else name (mkPath "textures/item" "blade.json")
          = stem (mkPath "textures/item" "blade.json.txt") +:+ ".png"
          /\ suffix (mkPath "textures/item" "blade.json") = ".png".
Proof.
  apply (check_non_png_target (mkPath "textures/item" "blade.json.txt")
           (mkWorld true false [] []) (mkPath "textures/item" "blade.json")
           (mkWorld true true [] [Asked (NotPngFile (mkPath "textures/item" "blade.json.txt"))]));
    [reflexivity | discriminate].
Defined.

(** ** [ask], continued *)

Lemma read_answer_cons line rest :
  read_answer (line :: rest)
  = match answer_of line with
    | Some answer => Some (answer, rest)
    | None => read_answer rest
    end.
Proof.
  unfold answer_of. cbn [read_answer].
  destruct (_ || _); [reflexivity|]. now destruct (_ || _).
Qed.

Lemma read_answer_skip skipped line rest answer :
  Forall (fun l => answer_of l = None) skipped ->
  answer_of line = Some answer ->
  read_answer (skipped ++ line :: rest) = Some (answer, rest).
Proof.
  intros Hs Hl. induction Hs as [|l skipped Hn _ IH].
  - cbn [app]. now rewrite read_answer_cons, Hl.
  - change ((l :: skipped) ++ line :: rest) with (l :: (skipped ++ line :: rest)).
    now rewrite read_answer_cons, Hn.
Qed.

Lemma read_answer_none lines :
  Forall (fun l => answer_of l = None) lines -> read_answer lines = None.
Proof.
  induction 1 as [|l lines Hn _ IH]; [reflexivity|].
  now rewrite read_answer_cons, Hn.
Qed.

(** X20: without [AUTO_FIX], [ask] reads lines until one is yes, y, no or
    n in any letter case; the lines before it are consumed and ignored,
    the lines after it are left for the next question, and if no line is
    an answer the question ends in [EOFError]; in each case the question
    is logged and [is_error_exist] is set. *)
Theorem ask_reads_until_answer q w :
  AUTO_FIX w = false ->
  (forall skipped line rest answer,
      stdin w = skipped ++ line :: rest ->
      Forall (fun l => answer_of l = None) skipped ->
      answer_of line = Some answer ->
      ask q w = (Normal answer, mkWorld false true rest (log w ++ [Asked q])))
  /\ (Forall (fun l => answer_of l = None) (stdin w) ->
      fst (ask q w) = Raise EOFError
      /\ is_error_exist (snd (ask q w)) = true
      /\ log (snd (ask q w)) = log w ++ [Asked q]).
Proof.
  intros Ha. unfold ask. cbn [AUTO_FIX stdin log is_error_exist]. rewrite Ha. split.
  - intros skipped line rest answer Hs Hskip Hl.
    now rewrite Hs, (read_answer_skip _ _ _ _ Hskip Hl).
  - intros Hnone. now rewrite (read_answer_none _ Hnone).
Qed.

Lemma ask_reads_until_answer_witness :
  ask PackFormatMissing (mkWorld false false ["maybe"; "YES"; "no"] [])
  = (Normal true, mkWorld false true ["no"] [Asked PackFormatMissing]).
Proof.
  destruct (ask_reads_until_answer PackFormatMissing
              (mkWorld false false ["maybe"; "YES"; "no"] []) eq_refl) as [H _].
  apply (H ["maybe"] "YES" ["no"] true); [reflexivity | | reflexivity].
  repeat constructor.
Defined.

(** ** [fix_name], continued *)

Lemma get_map f i s : String.get i (PyStr.map f s) = option_map f (String.get i s).
Proof.
  revert i. induction s as [|c s IH]; intros [|i]; cbn; try reflexivity. apply IH.
Qed.

Lemma length_map f s : String.length (PyStr.map f s) = String.length s.
Proof. induction s as [|c s IH]; cbn; [reflexivity | now rewrite IH]. Qed.

Lemma normalized_char_slash c :
  Ascii.eqb (PyStr.lower_char (if Ascii.eqb PyStr.space c then PyStr.underscore else c))
    slash
  = Ascii.eqb c slash.
Proof. destruct c as [[] [] [] [] [] [] [] []]; vm_compute; reflexivity. Qed.

Lemma normalized_char_dot c :
  Ascii.eqb (PyStr.lower_char (if Ascii.eqb PyStr.space c then PyStr.underscore else c))
    PyStr.dot
  = Ascii.eqb c PyStr.dot.
Proof. destruct c as [[] [] [] [] [] [] [] []]; vm_compute; reflexivity. Qed.

Lemma get_normalized i s mark :
  (forall c,
      Ascii.eqb (PyStr.lower_char
                   (if Ascii.eqb PyStr.space c then PyStr.underscore else c)) mark
      = Ascii.eqb c mark) ->
  String.get i (normalized s) = Some mark <-> String.get i s = Some mark.
Proof.
  intros Hc. unfold normalized, PyStr.lower, PyStr.replace_space.
  rewrite !get_map. destruct (String.get i s) as [c|]; cbn [option_map]; [|tauto].
  specialize (Hc c). split; intros [= H]; f_equal.
  - apply Ascii.eqb_eq. rewrite <- Hc. now apply Ascii.eqb_eq.
  - apply Ascii.eqb_eq. rewrite Hc. now apply Ascii.eqb_eq.
Qed.

Lemma rfind_dot_normalized s : PyStr.rfind_dot (normalized s) = PyStr.rfind_dot s.
Proof.
  unfold normalized, PyStr.lower, PyStr.replace_space.
  induction s as [|c s IH]; [reflexivity|].
  cbn [PyStr.map PyStr.rfind_dot]. rewrite IH.
  destruct (PyStr.rfind_dot s); [reflexivity|].
  now rewrite normalized_char_dot.
Qed.

(** X21: for an ASCII name, the name [fix_name] returns has the length
    of the name it was given, a slash exactly where that name has one
    and a dot exactly where that name has one: a corrected path keeps its
    depth, and its last component keeps the place where its suffix
    begins. *)
Theorem fix_name_keeps_layout s w b s' w' :
  PyStr.isascii s = true ->
  fix_name s w = (Normal (b, s'), w') ->
  String.length s' = String.length s
  /\ PyStr.rfind_dot s' = PyStr.rfind_dot s
  /\ forall i,
       (String.get i s' = Some slash <-> String.get i s = Some slash)
       /\ (String.get i s' = Some PyStr.dot <-> String.get i s = Some PyStr.dot).
Proof.
  intros _ H. destruct (fix_name_either _ _ _ _ _ H) as [-> | ->].
  - repeat split; auto.
  - split; [|split].
    + unfold normalized, PyStr.lower, PyStr.replace_space. now rewrite !length_map.
    + apply rfind_dot_normalized.
    + intros i. split; apply get_normalized;
        [apply normalized_char_slash | apply normalized_char_dot].
Qed.

Lemma fix_name_keeps_layout_witness :
  String.length "assets/my_pack/a_b.png" = String.length "Assets/My Pack/A b.PNG"
  /\ PyStr.rfind_dot "assets/my_pack/a_b.png" = PyStr.rfind_dot "Assets/My Pack/A b.PNG".
Proof.
  destruct (fix_name_keeps_layout "Assets/My Pack/A b.PNG" (mkWorld true false [] [])
              true "assets/my_pack/a_b.png"
              (mkWorld true true [] [Asked (InvalidFileName "Assets/My Pack/A b.PNG")])
              eq_refl eq_refl) as (H1 & H2 & _).
  split; [exact H1 | exact H2].
Defined.

(** ** [diagnose], continued *)

(** X22: with an operator who acknowledges each message, [diagnose] lets
    exactly one exception out: the [TypeError] of its own call
    [diagnose()], made without an argument after a [NoQuickFix]; the run
    it announces with "try again" never starts.  Every other outcome of
    the run, any other exception included, ends [diagnose] normally. *)
Theorem diagnose_raises_only_on_retry getpass _diagnose w e :
  (forall w, exists w', getpass w = (Normal tt, w')) ->
  fst (diagnose getpass _diagnose w) = Raise e
  <-> e = TypeError /\ exists m, fst (_diagnose w) = Raise (NoQuickFix m).
Proof.
  intros Hg. unfold diagnose.
  destruct (_diagnose w) as [[[]|e'] w1]; cbn [fst].
  - split; [discriminate | intros [_ [m [=]]]].
  - destruct e';
      try (destruct (Hg w1) as [w2 ->]; cbn [fst];
           split; [discriminate | intros [_ [m' [=]]]]).
    unfold bind. destruct (Hg (set_is_error_exist w1)) as [w2 ->]. cbn.
    split.
    + intros [= <-]. split; [reflexivity | now exists m].
    + now intros [-> _].
Qed.

Lemma diagnose_raises_only_on_retry_witness :
  fst (diagnose (ret tt) (raise (NoQuickFix (MalformedJson sword_json)))
         (mkWorld false false [] []))
  = Raise TypeError.
Proof.
  apply (diagnose_raises_only_on_retry (ret tt)
           (raise (NoQuickFix (MalformedJson sword_json)))
           (mkWorld false false [] []) TypeError).
  - intros w. now exists w.
  - split; [reflexivity|]. now exists (MalformedJson sword_json).
Defined.

(** ** Objects with distinct keys *)

Lemma distinct_dict_get e k u :
  distinct (map fst e) = true -> In (k, u) e -> Py.dict_get e k = Some u.
Proof.
  induction e as [|[k0 v0] e IH]; cbn [map fst distinct Py.dict_get]; [intros _ []|].
  intros [Hn Hd]%andb_true_iff [[= -> ->]|Hin].
  - now rewrite String.eqb_refl.
  - destruct (String.eqb_spec k k0) as [->|_]; [|now apply IH].
    exfalso. apply negb_true_iff in Hn.
    assert (H : existsb (String.eqb k0) (map fst e) = true); [|congruence].
    apply existsb_exists. exists k0. split; [|apply String.eqb_refl].
    apply in_map_iff. now exists (k0, u).
Qed.

Lemma distinct_unique (e : list (string * JSON)) k u u' :
  distinct (map fst e) = true -> In (k, u) e -> In (k, u') e -> u = u'.
Proof.
  intros Hd H1 H2.
  apply (distinct_dict_get _ _ _ Hd) in H1. apply (distinct_dict_get _ _ _ Hd) in H2.
  congruence.
Qed.

Lemma eq_dict_get dx dy k v :
  distinct (map fst dy) = true ->
  Py.eq (JDict dx) (JDict dy) = true ->
  Py.dict_get dx k = Some v ->
  exists u, Py.dict_get dy k = Some u /\ Py.eq v u = true.
Proof.
  intros Hd He Hg. rewrite eq_JDict in He. apply andb_true_iff in He as [_ He].
  rewrite forallb_forall in He. specialize (He _ (dict_get_In _ _ _ Hg)).
  unfold has_item in He. apply existsb_exists in He as ([k' u] & Hin & Hm).
  cbn [fst snd] in Hm. apply andb_true_iff in Hm as [Hk Hu].
  apply String.eqb_eq in Hk. subst k'.
  exists u. split; [now apply distinct_dict_get | exact Hu].
Qed.

Lemma distinct_keys_dict d :
  distinct_keys (JDict d) = true ->
  distinct (map fst d) = true /\ forall k v, In (k, v) d -> distinct_keys v = true.
Proof.
  cbn [distinct_keys]. intros [Hd Hall]%andb_true_iff. split; [exact Hd|].
  clear Hd. induction d as [|[k0 v0] d IH]; [intros k v []|].
  apply andb_true_iff in Hall as [H0 Hall].
  intros k v [[= <- <-]|Hin]; [exact H0 | now apply (IH Hall k v)].
Qed.

(** Two overrides that [==] takes for equal carry the same
    discriminator. *)
Lemma eq_custom_model_data x y a b :
  distinct_keys y = true ->
  Py.eq x y = true ->
  custom_model_data_of x = Normal (JInt a) ->
  custom_model_data_of y = Normal (JInt b) ->
  a = b.
Proof.
  unfold custom_model_data_of. intros Hy He Hx Hb.
  destruct x as [| | | | |dx]; try discriminate.
  destruct y as [| | | | |dy]; try discriminate.
  cbn [Py.getitem] in Hx, Hb.
  destruct (Py.dict_get dx "predicate") as [px|] eqn:Gx; [|discriminate].
  destruct (Py.dict_get dy "predicate") as [py|] eqn:Gy; [|discriminate].
  cbn [rbind] in Hx, Hb.
  destruct px as [| | | | |ppx]; try discriminate.
  destruct py as [| | | | |ppy]; try discriminate.
  cbn [Py.getitem] in Hx, Hb.
  destruct (Py.dict_get ppx "custom_model_data") as [cx|] eqn:Cx; [|discriminate].
  destruct (Py.dict_get ppy "custom_model_data") as [cy|] eqn:Cy; [|discriminate].
  injection Hx as ->. injection Hb as ->.
  destruct (distinct_keys_dict _ Hy) as [Hdy Hsub].
  destruct (eq_dict_get _ _ _ _ Hdy He Gx) as (u & Gu & Eu).
  rewrite Gy in Gu. injection Gu as <-.
  pose proof (Hsub _ _ (dict_get_In _ _ _ Gy)) as Hpy.
  destruct (distinct_keys_dict _ Hpy) as [Hdpy _].
  destruct (eq_dict_get _ _ _ _ Hdpy Eu Cx) as (u' & Gu' & Eu').
  rewrite Cy in Gu'. injection Gu' as <-.
  cbn [Py.eq] in Eu'. now apply Z.eqb_eq in Eu'.
Qed.

Lemma eq_lists_keys l m zs zs' :
  forallb distinct_keys m = true ->
  eq_lists l m = true ->
  traverse custom_model_data_of l = Normal (map JInt zs) ->
  traverse custom_model_data_of m = Normal (map JInt zs') ->
  zs = zs'.
Proof.
  revert m zs zs'. induction l as [|x l IH]; intros [|y m] zs zs';
    cbn [eq_lists]; try discriminate.
  - intros _ _. cbn [traverse]. destruct zs, zs'; try discriminate. reflexivity.
  - cbn [forallb traverse]. intros [Hy Hm]%andb_true_iff [Exy Elm]%andb_true_iff.
    destruct (custom_model_data_of x) as [kx|] eqn:Kx; cbn [rbind]; [|discriminate].
    destruct (traverse custom_model_data_of l) as [kl|] eqn:Kl; cbn [rbind]; [|discriminate].
    destruct (custom_model_data_of y) as [ky|] eqn:Ky; cbn [rbind]; [|discriminate].
    destruct (traverse custom_model_data_of m) as [km|] eqn:Km; cbn [rbind]; [|discriminate].
    destruct zs as [|a zs]; [discriminate|]. destruct zs' as [|b zs']; [discriminate|].
    cbn [map]. intros [= -> ->] [= -> ->].
    f_equal; [eapply eq_custom_model_data; eassumption | eapply IH; eauto].
Qed.

(** ** [check_vanilla_json]: the rearrangement *)

Lemma ascending_overrides_idle p d overrides keys w :
  Py.dict_get d "overrides" = Some (JList overrides) ->
  traverse custom_model_data_of overrides = Normal keys ->
  ascending_keys keys = true ->
  exists events,
    log (snd (check_vanilla_json p (JDict d) w)) = log w ++ events
    /\ Forall is_name_prompt events.
Proof.
  intros Hd Ht Ha.
  destruct (sorted_stable_on_integers overrides keys Ht) as [Hidle _].
  destruct (Hidle Ha) as [_ H]. now apply H.
Qed.

Lemma appends_models overrides :
  appends is_name_prompt
    (fixed <- fix_models overrides;;
     lift (traverse (fun override => Py.getitem override "model") fixed)).
Proof.
  apply appends_bind; [apply appends_fix_models|]. intros fixed. apply appends_lift.
Qed.

(** When [sorted] returns another list, the rearrangement is offered, and
    written when the offer is taken. *)
Lemma rearrange_and_fix_unsorted p d overrides sorted_overrides w answer :
  sorted overrides custom_model_data_of = Normal sorted_overrides ->
  Py.eq (JList overrides) (JList sorted_overrides) = false ->
  next_answer w = Some answer ->
  exists events,
    log (snd (rearrange_and_fix p (JDict d) overrides w))
    = log w
      ++ Asked (NotAscending p)
         :: (if answer : bool
             then [Dumped p (JDict (Py.dict_set d "overrides" (JList sorted_overrides)))]
             else [])
         ++ events
    /\ Forall is_name_prompt events.
Proof.
  intros Hs He Ha. unfold rearrange_and_fix, bind at 1 2, lift at 1.
  rewrite Hs, He. cbn [negb].
  destruct (ask_next (NotAscending p) w answer Ha) as (w1 & E & _ & L).
  rewrite E. destruct answer.
  - unfold bind at 1 2 3, lift at 1, dump, emit. cbn [Py.setitem ret].
    match goal with
    | |- context [bind (fix_models _) _ ?w2] =>
        destruct (appends_models sorted_overrides w2) as (events & L2 & F)
    end.
    exists events. split; [|exact F].
    rewrite L2. cbn [log]. rewrite L, <- !app_assoc. reflexivity.
  - unfold bind at 1, ret.
    destruct (appends_models overrides w1) as (events & L2 & F).
    exists events. split; [|exact F].
    rewrite L2, L, <- app_assoc. reflexivity.
Qed.

(** C9: when the discriminators of an override list are already in
    ascending order, [sorted] returns the list itself and
    [check_vanilla_json] logs nothing but the prompts of [fix_name]: no
    prompt to rearrange and no rewrite.  On integer discriminators
    [sorted] returns a permutation in ascending order that keeps entries
    with equal discriminators in their original order, and this is the
    list [check_vanilla_json] works with: when the discriminators of a
    loaded list pass the duplicate scan and are not in ascending order,
    it asks whether to rearrange and, when the answer is yes, writes the
    document with this list for its overrides.  Sorting the result again
    changes nothing, and checking the document with the sorted list
    brings no prompt to rearrange and no rewrite. *)
Theorem sorted_overrides_stable_and_idle overrides keys :
  traverse custom_model_data_of overrides = Normal keys ->
  (ascending_keys keys = true ->
   sorted overrides custom_model_data_of = Normal overrides
   /\ forall p d w,
        Py.dict_get d "overrides" = Some (JList overrides) ->
        exists events,
          log (snd (check_vanilla_json p (JDict d) w)) = log w ++ events
          /\ Forall is_name_prompt events)
  /\ (forall zs,
         keys = map JInt zs ->
         ascending_keys keys = ascending zs
         /\ exists sorted_overrides zs',
              sorted overrides custom_model_data_of = Normal sorted_overrides
              /\ traverse custom_model_data_of sorted_overrides
                 = Normal (map JInt zs')
              /\ ascending zs' = true
              /\ Permutation overrides sorted_overrides
              /\ (forall z,
                     List.filter (with_key z) (combine zs' sorted_overrides)
                     = List.filter (with_key z) (combine zs overrides))
              /\ sorted sorted_overrides custom_model_data_of
                 = Normal sorted_overrides
              /\ forall p d,
                   Py.dict_get d "overrides" = Some (JList overrides) ->
                   (distinct_keys (JList overrides) = true ->
                    adjacent_equal (JInt (-1) :: keys) = false ->
                    ascending zs = false ->
                    forall w answer,
                      next_answer w = Some answer ->
                      exists events,
                        log (snd (check_vanilla_json p (JDict d) w))
                        = log w
                          ++ Asked (NotAscending p)
                             :: (if answer : bool
                                 then [Dumped p
                                         (JDict (Py.dict_set d "overrides"
                                                   (JList sorted_overrides)))]
                                 else [])
                             ++ events
                        /\ Forall is_name_prompt events)
                   /\ (forall w,
                          exists events,
                            log (snd (check_vanilla_json p
                                        (JDict (Py.dict_set d "overrides"
                                                  (JList sorted_overrides))) w))
                            = log w ++ events
                            /\ Forall is_name_prompt events)).
Proof.
  intros Ht. destruct (sorted_stable_on_integers overrides keys Ht) as [Hidle Hint].
  split; [exact Hidle|].
  intros zs Hk. destruct (Hint zs Hk) as (Hasc & so & zs' & Hs & Ht' & Ha' & Hp & Hst & Hid).
  split; [exact Hasc|].
  exists so, zs'. repeat (split; [assumption|]).
  intros p d Hd. split.
  - intros Hdist Hadj Hna w answer Hans. subst keys.
    assert (Hne : overrides <> []).
    { intros ->. cbn [traverse] in Ht. destruct zs; [|discriminate].
      discriminate. }
    rewrite (check_vanilla_json_scan p d _ _ w Hd Hne Ht).
    apply (scan_duplicates_adjacent p) in Hadj. rewrite Hadj.
    apply rearrange_and_fix_unsorted; [exact Hs| |exact Hans].
    destruct (Py.eq (JList overrides) (JList so)) eqn:Q; [|reflexivity].
    exfalso. rewrite eq_JList in Q.
    assert (Hso : forallb distinct_keys so = true).
    { cbn [distinct_keys] in Hdist. rewrite forallb_forall in *.
      intros x Hx. apply Hdist. eapply Permutation_in; [symmetry; exact Hp | exact Hx]. }
    pose proof (eq_lists_keys _ _ _ _ Hso Q Ht Ht') as ->. congruence.
  - intros w.
    apply (ascending_overrides_idle p _ so (map JInt zs') w);
      [apply dict_get_set_eq | exact Ht' | now rewrite ascending_keys_int].
Qed.

Lemma sorted_overrides_stable_and_idle_witness :
  exists sorted_overrides,
    Permutation [override_entry (JInt 2) "b"; override_entry (JInt 1) "a"]
      sorted_overrides
    /\ exists events,
         log (snd (check_vanilla_json sword_json
                     (vanilla_document [override_entry (JInt 2) "b";
                                        override_entry (JInt 1) "a"])
                     (mkWorld false false ["yes"] [])))
         = [] ++ Asked (NotAscending sword_json)
              :: [Dumped sword_json
                    (JDict (Py.dict_set
                              [("parent", JStr "item/generated");
                               ("textures", JDict [("layer0", JStr "item/sword")]);
                               ("overrides",
                                JList [override_entry (JInt 2) "b";
                                       override_entry (JInt 1) "a"])]
                              "overrides" (JList sorted_overrides)))]
              ++ events
         /\ Forall is_name_prompt events.
Proof.
  destruct (sorted_overrides_stable_and_idle
              [override_entry (JInt 2) "b"; override_entry (JInt 1) "a"]
              [JInt 2; JInt 1] eq_refl) as [_ H].
  destruct (H [2; 1] eq_refl) as (_ & so & zs' & _ & _ & _ & Hp & _ & _ & Hcode).
  exists so. split; [exact Hp|].
  destruct (Hcode sword_json
              [("parent", JStr "item/generated");
               ("textures", JDict [("layer0", JStr "item/sword")]);
               ("overrides",
                JList [override_entry (JInt 2) "b"; override_entry (JInt 1) "a"])]
              eq_refl) as [Hask _].
  exact (Hask eq_refl eq_refl eq_refl (mkWorld false false ["yes"] []) true eq_refl).
Defined.

(** ** [check_custom_json] with the answers typed in *)

Lemma ask_answer q w answer rest :
  AUTO_FIX w = false ->
  map answer_of (stdin w) = map Some (answer :: rest) ->
  exists w',
    ask q w = (Normal answer, w')
    /\ AUTO_FIX w' = false
    /\ map answer_of (stdin w') = map Some rest.
Proof.
  intros Ha Hs. destruct (stdin w) as [|line lines] eqn:E; [discriminate|].
  cbn [map] in Hs. injection Hs as Hl Hr.
  unfold ask. cbn [AUTO_FIX stdin log is_error_exist].
  rewrite Ha, E, read_answer_cons, Hl.
  eexists. split; [reflexivity|]. cbn [AUTO_FIX stdin]. auto.
Qed.

Lemma ask_end q w :
  AUTO_FIX w = false -> map answer_of (stdin w) = [] ->
  fst (ask q w) = Raise EOFError.
Proof.
  intros Ha Hs. destruct (stdin w) eqn:E; [|discriminate].
  unfold ask. cbn [AUTO_FIX stdin]. now rewrite Ha, E.
Qed.

Lemma fix_name_answer s w answer rest :
  AUTO_FIX w = false ->
  passes_fix_name s = false ->
  map answer_of (stdin w) = map Some (answer :: rest) ->
  exists w',
    fix_name s w = (Normal (answer, if answer : bool then normalized s else s), w')
    /\ AUTO_FIX w' = false
    /\ map answer_of (stdin w') = map Some rest.
Proof.
  intros Ha Hp Hs. unfold passes_fix_name in Hp. unfold fix_name. rewrite Hp.
  destruct (ask_answer (InvalidFileName s) w answer rest Ha Hs) as (w' & E & A & R).
  exists w'. unfold bind. rewrite E. now destruct answer.
Qed.

Lemma fix_name_end s w :
  AUTO_FIX w = false ->
  passes_fix_name s = false ->
  map answer_of (stdin w) = [] ->
  fst (fix_name s w) = Raise EOFError.
Proof.
  intros Ha Hp Hs. unfold passes_fix_name in Hp. unfold fix_name. rewrite Hp.
  pose proof (ask_end (InvalidFileName s) w Ha Hs) as E.
  unfold bind. destruct (ask _ w) as [[?|e] w1]; cbn [fst] in *; congruence.
Qed.

Lemma bind_raise {A B} (m : M A) (k : A -> M B) w e :
  fst (m w) = Raise e -> fst (bind m k w) = Raise e.
Proof. unfold bind. destruct (m w) as [[a|e'] w1]; cbn [fst]; congruence. Qed.

(** [fix_textures] takes the answers as [offered_fixes] does. *)
Lemma fix_textures_answers items strs w answers :
  map snd items = map JStr strs ->
  AUTO_FIX w = false ->
  map answer_of (stdin w) = map Some answers ->
  match offered_fixes strs answers with
  | Some (fixed, rest) =>
      exists w',
        fix_textures items w
        = (Normal (combine (map fst items) (map JStr fixed)), w')
        /\ AUTO_FIX w' = false
        /\ map answer_of (stdin w') = map Some rest
  | None => fst (fix_textures items w) = Raise EOFError
  end.
Proof.
  revert strs w answers.
  induction items as [|[key texture] items IH]; intros strs w answers Hs Ha Hin.
  - destruct strs; [|discriminate]. cbn [offered_fixes]. exists w. auto.
  - destruct strs as [|s strs]; [discriminate|]. cbn [map snd] in Hs.
    injection Hs as -> Hs.
    cbn [offered_fixes fix_textures fix_name_value].
    destruct (passes_fix_name s) eqn:P.
    + specialize (IH strs w answers Hs Ha Hin).
      destruct (offered_fixes strs answers) as [[fixed rest]|].
      * destruct IH as (w' & E & A & R). exists w'.
        unfold bind at 1 2. rewrite (fix_name_clean s w P). cbn [ret fst snd].
        unfold bind. rewrite E. cbn [ret map fst combine]. auto.
      * unfold bind at 1 2. rewrite (fix_name_clean s w P). cbn [ret fst snd].
        now apply bind_raise.
    + destruct answers as [|answer answers].
      * apply bind_raise, bind_raise. now apply fix_name_end.
      * destruct (fix_name_answer s w answer answers Ha P Hin) as (w1 & E1 & A1 & R1).
        specialize (IH strs w1 answers Hs A1 R1).
        destruct (offered_fixes strs answers) as [[fixed rest]|].
        -- destruct IH as (w' & E & A & R). exists w'.
           unfold bind at 1 2. rewrite E1. cbn [ret fst snd].
           unfold bind. rewrite E. cbn [ret map fst combine].
           destruct answer; auto.
        -- unfold bind at 1 2. rewrite E1. cbn [ret fst snd].
           now apply bind_raise.
Qed.

Lemma offered_fixes_length strs answers fixed rest :
  offered_fixes strs answers = Some (fixed, rest) -> length fixed = length strs.
Proof.
  revert answers fixed rest. induction strs as [|s strs IH];
    intros answers fixed rest; cbn [offered_fixes].
  - now intros [= <- _].
  - destruct (passes_fix_name s).
    + destruct (offered_fixes strs answers) as [[f r]|] eqn:O; [|discriminate].
      intros [= <- _]. cbn [length]. f_equal. eapply IH, O.
    + destruct answers as [|a answers]; [discriminate|].
      destruct (offered_fixes strs answers) as [[f r]|] eqn:O; [|discriminate].
      intros [= <- _]. cbn [length]. f_equal. eapply IH, O.
Qed.

Lemma combine_keys {A B} (l : list A) (m : list B) :
  length l = length m -> map fst (combine l m) = l.
Proof.
  revert m. induction l as [|x l IH]; intros [|y m]; cbn; try discriminate;
    [reflexivity|].
  intros [= H]. now rewrite IH.
Qed.

Lemma combine_values {A B} (l : list A) (m : list B) :
  length l = length m -> map snd (combine l m) = m.
Proof.
  revert m. induction l as [|x l IH]; intros [|y m]; cbn; try discriminate;
    [reflexivity|].
  intros [= H]. now rewrite IH.
Qed.

Lemma combine_items {A B} (l : list (A * B)) : combine (map fst l) (map snd l) = l.
Proof. induction l as [|[x y] l IH]; cbn; [reflexivity | now rewrite IH]. Qed.

Lemma fixed_equal_aux e items strs fixed :
  distinct (map fst e) = true ->
  map snd items = map JStr strs ->
  length fixed = length strs ->
  incl (combine (map fst items) (map JStr fixed)) e ->
  forallb (has_item e) items = true ->
  fixed = strs.
Proof.
  intros Hd. revert strs fixed.
  induction items as [|[k v] items IH]; intros strs fixed Hs Hl Hincl Hall.
  - destruct strs; [|discriminate]. destruct fixed; [reflexivity | discriminate].
  - destruct strs as [|s strs]; [discriminate|].
    destruct fixed as [|t fixed]; [discriminate|].
    cbn [map snd] in Hs. injection Hs as -> Hs. injection Hl as Hl.
    cbn [forallb] in Hall. apply andb_true_iff in Hall as [H0 Hall].
    cbn [map fst combine] in Hincl.
    f_equal.
    + unfold has_item in H0. apply existsb_exists in H0 as ([k' u] & Hin & Hm).
      cbn [fst snd] in Hm. apply andb_true_iff in Hm as [Hk Hu].
      apply String.eqb_eq in Hk. subst k'.
      destruct u; cbn [Py.eq] in Hu; try discriminate.
      apply String.eqb_eq in Hu. subst.
      assert (Hin' : In (k, JStr t) e) by (apply Hincl; now left).
      pose proof (distinct_unique _ _ _ _ Hd Hin Hin'). congruence.
    + apply IH; auto. intros x Hx. apply Hincl. now right.
Qed.

(** On a loaded textures map, [json["textures"] != fixed_textures]
    compares the references one by one. *)
Lemma fixed_equal items strs fixed :
  distinct (map fst items) = true ->
  map snd items = map JStr strs ->
  length fixed = length strs ->
  Py.eq (JDict items) (JDict (combine (map fst items) (map JStr fixed)))
  = bool_decide (fixed = strs).
Proof.
  intros Hd Hs Hl.
  assert (Hlen : length (map fst items) = length (map JStr fixed)).
  { rewrite !List.length_map, Hl, <- (List.length_map JStr strs), <- Hs. now rewrite List.length_map. }
  destruct (bool_decide_reflect (fixed = strs)) as [->|Hne].
  - rewrite <- Hs, combine_items. apply py_eq_refl.
  - destruct (Py.eq _ _) eqn:Q; [|reflexivity]. exfalso. apply Hne.
    rewrite eq_JDict in Q. apply andb_true_iff in Q as [_ Q].
    eapply fixed_equal_aux; [|exact Hs|exact Hl| |exact Q].
    + now rewrite combine_keys.
    + intros x Hx. exact Hx.
Qed.

Lemma offered_fixes_confirmed strs answers :
  Forall (eq true) answers ->
  (length strs < length answers)%nat ->
  exists rest, offered_fixes strs answers = Some (map normalized strs, true :: rest).
Proof.
  revert answers. induction strs as [|s strs IH]; intros answers Hall Hlen.
  - destruct answers as [|a answers]; [cbn in Hlen; lia|].
    apply Forall_cons in Hall as [<- _]. now exists answers.
  - cbn [offered_fixes map]. destruct (passes_fix_name s) eqn:P.
    + destruct (IH answers Hall) as [rest ->]; [cbn in Hlen; lia|].
      exists rest. now rewrite (normalized_id s (guard_clean s P)).
    + destruct answers as [|a answers]; [cbn in Hlen; lia|].
      apply Forall_cons in Hall as [<- Hall].
      destruct (IH answers Hall) as [rest ->]; [cbn in Hlen; lia|].
      now exists rest.
Qed.

Lemma offered_fixes_declined strs answers :
  Forall (eq false) answers ->
  (length strs <= length answers)%nat ->
  exists rest, offered_fixes strs answers = Some (strs, rest).
Proof.
  revert answers. induction strs as [|s strs IH]; intros answers Hall Hlen.
  - now exists answers.
  - cbn [offered_fixes]. destruct (passes_fix_name s).
    + destruct (IH answers Hall) as [rest ->]; [cbn in Hlen; lia|]. now exists rest.
    + destruct answers as [|a answers]; [cbn in Hlen; lia|].
      apply Forall_cons in Hall as [<- Hall].
      destruct (IH answers Hall) as [rest ->]; [cbn in Hlen; lia|].
      now exists rest.
Qed.

(** C7 (amended): for a Custom document that passes the preconditions and
    whose texture references are ASCII names, [check_custom_json] returns
    the values of the textures map, not its keys.  With [AUTO_FIX] set
    these are the normalized forms, which contain no uppercase character
    and no space.  With the answers typed in, the values returned are
    those of [returned_textures]: the prompt of [fix_name] for a
    reference takes one answer, a confirmed fix gives the normalized
    reference and a declined one the reference as it stands; when
    nothing changed the document's values are returned unasked, and
    otherwise one more answer decides between the fixed values and the
    document's own.  So a yes to every prompt returns every value
    normalized, a no to every prompt returns every value as it stands,
    and in any case each value is returned as it stands or normalized. *)
Theorem check_custom_json_values p d items strs :
  Py.dict_get d "textures" = Some (JDict items) ->
  Py.dict_has d "elements" = true ->
  PyStr.contains missing_marker (Dumps.dumps (JDict d)) = false ->
  map snd items = map JStr strs ->
  distinct (map fst items) = true ->
  Forall (fun s => PyStr.isascii s = true) strs ->
  (forall w, AUTO_FIX w = true ->
             fst (check_custom_json p (JDict d) w)
             = Normal (map (fun s => JStr (normalized s)) strs))
  /\ (forall w answers,
         AUTO_FIX w = false ->
         map answer_of (stdin w) = map Some answers ->
         fst (check_custom_json p (JDict d) w)
         = match returned_textures strs answers with
           | Some values => Normal (map JStr values)
           | None => Raise EOFError
           end)
  /\ (forall answers,
         Forall (eq true) answers ->
         (length strs < length answers)%nat ->
         returned_textures strs answers = Some (map normalized strs))
  /\ (forall answers,
         Forall (eq false) answers ->
         (length strs <= length answers)%nat ->
         returned_textures strs answers = Some strs)
  /\ Forall (fun s => needs_fix (normalized s) = false) strs
  /\ (forall w textures,
         fst (check_custom_json p (JDict d) w) = Normal textures ->
         Forall2 fixed_from strs textures).
Proof.
  intros Hd He Hm Hs Hk _.
  destruct (check_custom_json_fixed_values p d items strs Hd He Hm Hs)
    as (Hauto & Hclean & Hfrom).
  split; [exact Hauto|]. split; [|split; [|split; [|split; assumption]]].
  - intros w answers Ha Hin. rewrite (check_custom_json_unfold _ _ _ _ Hd He Hm).
    pose proof (fix_textures_answers items strs w answers Hs Ha Hin) as Hf.
    unfold returned_textures.
    destruct (offered_fixes strs answers) as [[fixed rest]|] eqn:O;
      [|now apply bind_raise].
    destruct Hf as (w1 & E & A1 & R1).
    pose proof (offered_fixes_length _ _ _ _ O) as Hl.
    assert (Hv : map snd (combine (map fst items) (map JStr fixed)) = map JStr fixed).
    { apply combine_values. rewrite !List.length_map, Hl, <- (List.length_map JStr strs), <- Hs.
      now rewrite List.length_map. }
    unfold bind at 1. rewrite E, (fixed_equal items strs fixed Hk Hs Hl).
    destruct (bool_decide (fixed = strs)); cbn [negb].
    + unfold bind, ret. cbn [fst]. now rewrite Hs.
    + destruct rest as [|r rest].
      * now apply bind_raise, ask_end.
      * destruct (ask_answer (InvalidTextures p) w1 r rest A1 R1) as (w2 & E2 & _).
        unfold bind at 1. rewrite E2. destruct r.
        -- cbn. now rewrite Hv.
        -- cbn. now rewrite Hs.
  - intros answers Hall Hlen. unfold returned_textures.
    destruct (offered_fixes_confirmed strs answers Hall Hlen) as [rest ->].
    destruct (bool_decide_reflect (map normalized strs = strs)) as [Heq|_];
      [now rewrite Heq | reflexivity].
  - intros answers Hall Hlen. unfold returned_textures.
    destruct (offered_fixes_declined strs answers Hall Hlen) as [rest ->].
    now rewrite bool_decide_eq_true_2.
Qed.

Lemma check_custom_json_values_witness :
  fst (check_custom_json sword_json
         (JDict [("textures", JDict [("0", JStr "item/My Sword");
                                     ("particle", JStr "item/Old Blade")]);
                 ("elements", JList [])])
         (mkWorld false false ["yes"; "No"; "y"] []))
  = Normal [JStr "item/my_sword"; JStr "item/Old Blade"].
Proof.
  assert (Hascii : Forall (fun s => PyStr.isascii s = true)
                     ["item/My Sword"; "item/Old Blade"])
    by (repeat constructor).
  destruct (check_custom_json_values sword_json
              [("textures", JDict [("0", JStr "item/My Sword");
                                   ("particle", JStr "item/Old Blade")]);
               ("elements", JList [])]
              [("0", JStr "item/My Sword"); ("particle", JStr "item/Old Blade")]
              ["item/My Sword"; "item/Old Blade"]
              eq_refl eq_refl eq_refl eq_refl eq_refl Hascii) as (_ & H & _).
  exact (H (mkWorld false false ["yes"; "No"; "y"] []) [true; false; true]
           eq_refl eq_refl).
Defined.
